(** * Playlist item delegates (src/playlist/playlistdelegates.cpp)

    A shallow embedding of the delegate classes of the playlist view:
    [QueuedItemDelegate], [PlaylistDelegateBase] and the value formatters
    [LengthItemDelegate], [SizeItemDelegate], [DateItemDelegate] and
    [FileTypeItemDelegate].

    - C++ [int] is a [Z] whose arithmetic wraps at 32 bits ([wrap]).
    - [float] and [double] are IEEE 754 binary32 and binary64 values,
      computed with the executable operations of [SpecFloat].
    - A [QString] is null or holds characters; a [QVariant] is a tagged union.
    - The painter and the tooltip layer are explicit states: the list of the
      calls they received, oldest first.
    - What the file calls but does not define (the widget toolkit, and the
      declarations of the application's own headers) is gathered in the two
      records [Toolkit] and [Headers]. *)

From Stdlib Require Import ZArith QArith Qabs List String Ascii Bool Lia.
From Stdlib Require Import DecimalString.
From Stdlib Require Import Floats.SpecFloat.
Import ListNotations.

Local Open Scope string_scope.
Local Open Scope Z_scope.
Local Open Scope list_scope.

(* ================================================================= *)
(** ** Machine integers *)

Definition INT_MIN : Z := - 2 ^ 31.
Definition INT_MAX : Z := 2 ^ 31 - 1.

(** Reduction of an integer to the 32-bit two's complement range. *)
Definition wrap (z : Z) : Z := (z + 2 ^ 31) mod 2 ^ 32 - 2 ^ 31.

Definition in_int (z : Z) : Prop := INT_MIN <= z <= INT_MAX.

Definition int_add (a b : Z) : Z := wrap (a + b).
Definition int_sub (a b : Z) : Z := wrap (a - b).
Definition int_mul (a b : Z) : Z := wrap (a * b).
Definition int_neg (a : Z) : Z := wrap (- a).

(** Conversion of an [int] to [uint] (the argument of
    [QDateTime::fromTime_t]). *)
Definition to_uint (z : Z) : Z := z mod 2 ^ 32.

Definition qMin (a b : Z) : Z := if b <? a then b else a.

(* ================================================================= *)
(** ** Floating point: binary32 [float] and binary64 [double] *)

Definition float := spec_float.
Definition double := spec_float.

Definition fprec : Z := 24.
Definition femax : Z := 128.
Definition dprec : Z := 53.
Definition demax : Z := 1024.

Definition float_of_int (z : Z) : float := binary_normalize fprec femax z 0 false.
Definition double_of_int (z : Z) : double := binary_normalize dprec demax z 0 false.

(** Rounding of a value to each format.  Every [float] is a [double], so
    [double_of_float] is exact; [float_of_double] rounds to nearest even. *)
Definition round_to (prec emax : Z) (x : spec_float) : spec_float :=
  match x with
  | S754_finite s m e =>
      binary_normalize prec emax (if s then Z.neg m else Z.pos m) e s
  | _ => x
  end.

Definition double_of_float (x : float) : double := round_to dprec demax x.
Definition float_of_double (x : double) : float := round_to fprec femax x.

Definition float_add : float -> float -> float := SFadd fprec femax.
Definition float_div : float -> float -> float := SFdiv fprec femax.
Definition double_sub : double -> double -> double := SFsub dprec demax.
Definition double_mul : double -> double -> double := SFmul dprec demax.

(** The rational number a finite floating-point value stands for. *)
Definition float_value (x : spec_float) : option Q :=
  match x with
  | S754_zero _ => Some (0 # 1)
  | S754_finite s m e =>
      let q :=
        if 0 <=? e then inject_Z (Z.pos m * 2 ^ e)
        else Z.pos m # Z.to_pos (2 ^ (- e)) in
      Some (if s then Qopp q else q)
  | S754_infinity _ | S754_nan => None
  end.

(** [x > 0] on doubles; false on a NaN. *)
Definition double_gt0 (x : double) : bool := SFltb (double_of_int 0) x.

(** [x <= 0] on doubles; false on a NaN. *)
Definition double_le0 (x : double) : bool := SFleb x (double_of_int 0).

(* ================================================================= *)
(** ** QString *)

Inductive QString : Type :=
| QNull
| QStr (s : string).

Definition chars (q : QString) : string :=
  match q with QNull => "" | QStr s => s end.

Definition isNull (q : QString) : bool :=
  match q with QNull => true | QStr _ => false end.

Definition string_is_empty (s : string) : bool :=
  match s with EmptyString => true | String _ _ => false end.

Definition isEmpty (q : QString) : bool := string_is_empty (chars q).

(** [a + b] and [a += b]: the result of a concatenation is never null. *)
Definition qappend (a b : QString) : QString := QStr (chars a ++ chars b)%string.

(** [QString::number(int)]: the decimal digits, with a sign when negative. *)
Definition number (n : Z) : QString := QStr (NilZero.string_of_int (Z.to_int n)).

Definition ascii_lower (c : ascii) : ascii :=
  let n := nat_of_ascii c in
  if (Nat.leb 65 n && Nat.leb n 90)%bool then ascii_of_nat (n + 32) else c.

Fixpoint string_lower (s : string) : string :=
  match s with
  | EmptyString => EmptyString
  | String c r => String (ascii_lower c) (string_lower r)
  end.

(* ================================================================= *)
(** ** Geometry, fonts, colours *)

Record QPoint : Type := mkPoint { px : Z; py : Z }.

Record QSize : Type := mkSize { width : Z; height : Z }.

Definition setHeight (s : QSize) (h : Z) : QSize :=
  {| width := width s; height := h |}.

(** A rectangle is stored by its corners, as the toolkit does. *)
Record QRect : Type := mkRect { x1 : Z; y1 : Z; x2 : Z; y2 : Z }.

Definition left (r : QRect) : Z := x1 r.
Definition top (r : QRect) : Z := y1 r.
Definition right (r : QRect) : Z := x2 r.
Definition bottom (r : QRect) : Z := y2 r.

Definition setLeft (r : QRect) (v : Z) : QRect :=
  {| x1 := v; y1 := y1 r; x2 := x2 r; y2 := y2 r |}.
Definition setTop (r : QRect) (v : Z) : QRect :=
  {| x1 := x1 r; y1 := v; x2 := x2 r; y2 := y2 r |}.
Definition setRight (r : QRect) (v : Z) : QRect :=
  {| x1 := x1 r; y1 := y1 r; x2 := v; y2 := y2 r |}.
Definition setBottom (r : QRect) (v : Z) : QRect :=
  {| x1 := x1 r; y1 := y1 r; x2 := x2 r; y2 := v |}.
Definition setWidth (r : QRect) (w : Z) : QRect :=
  {| x1 := x1 r; y1 := y1 r; x2 := int_sub (int_add (x1 r) w) 1; y2 := y2 r |}.

Definition topLeft (r : QRect) : QPoint := mkPoint (x1 r) (y1 r).
Definition bottomLeft (r : QRect) : QPoint := mkPoint (x1 r) (y2 r).

Record QFont : Type := mkFont { family : string; pointSize : Z; bold : bool }.

(** [QFont::setPointSize] ignores a size that is not positive. *)
Definition setPointSize (f : QFont) (n : Z) : QFont :=
  if n <=? 0 then f
  else {| family := family f; pointSize := n; bold := bold f |}.

Definition setBold (f : QFont) (b : bool) : QFont :=
  {| family := family f; pointSize := pointSize f; bold := b |}.

Definition QRgb := Z.

Definition qRgb (r g b : Z) : QRgb :=
  Z.lor (Z.shiftl 255 24)
    (Z.lor (Z.shiftl (Z.land r 255) 16)
       (Z.lor (Z.shiftl (Z.land g 255) 8) (Z.land b 255))).

Definition Qt_white : QRgb := qRgb 255 255 255.

Record QLinearGradient : Type := mkGradient {
  g_start : QPoint;
  g_final : QPoint;
  g_stops : list (double * QRgb)
}.

Definition setColorAt (g : QLinearGradient) (pos : double) (c : QRgb)
  : QLinearGradient :=
  {| g_start := g_start g; g_final := g_final g;
     g_stops := g_stops g ++ [(pos, c)] |}.

(* ================================================================= *)
(** ** QVariant and model indexes *)

(** The variant types the playlist model produces, and [VSize] for the
    types that convert to neither a number, a string nor a boolean. *)
Inductive QVariant : Type :=
| Invalid
| VBool (b : bool)
| VInt (i : Z)
| VUInt (u : Z)
| VLongLong (l : Z)
| VULongLong (u : Z)
| VDouble (d : double)
| VFloat (f : float)
| VString (s : QString)
| VSize (s : QSize).

Inductive Role : Type :=
| DisplayRole
| ToolTipRole
| Role_IsCurrent
| Role_StopAfter
| Role_QueuePosition
| OtherRole (n : Z).

Definition Role_eqb (a b : Role) : bool :=
  match a, b with
  | DisplayRole, DisplayRole => true
  | ToolTipRole, ToolTipRole => true
  | Role_IsCurrent, Role_IsCurrent => true
  | Role_StopAfter, Role_StopAfter => true
  | Role_QueuePosition, Role_QueuePosition => true
  | OtherRole n, OtherRole m => n =? m
  | _, _ => false
  end.

(** An index is read through [column()] and [data(role)] only. *)
Record QModelIndex : Type := mkIndex {
  row : Z;
  column : Z;
  data : Role -> QVariant
}.

(** The same index over a model whose [role] data is [v]. *)
Definition with_data (i : QModelIndex) (role : Role) (v : QVariant)
  : QModelIndex :=
  {| row := row i; column := column i;
     data := fun r => if Role_eqb r role then v else data i r |}.

(** The file types of [Song::FileType]; their integer values are in
    [Headers]. *)
Inductive FileType : Type :=
| Type_Unknown | Type_Asf | Type_Flac | Type_Mp4 | Type_Mpc | Type_Mpeg
| Type_OggFlac | Type_OggSpeex | Type_OggVorbis | Type_Aiff | Type_Wav
| Type_TrueAudio | Type_Stream.

(** The twelve types [FileTypeItemDelegate::displayText] has a label for. *)
Definition recognised_types : list FileType :=
  [Type_Asf; Type_Flac; Type_Mp4; Type_Mpc; Type_Mpeg; Type_OggFlac;
   Type_OggSpeex; Type_OggVorbis; Type_Aiff; Type_Wav; Type_TrueAudio;
   Type_Stream].

(* ================================================================= *)
(** ** Views, style options, painter and tooltip states *)

(** A header: its sections in visual order and its scroll offset. *)
Record HeaderSection : Type := mkSection {
  logical : Z;
  sectionSize : Z;
  sectionHidden : bool
}.

Record QHeaderView : Type := mkHeader {
  sections : list HeaderSection;
  offset : Z
}.

Definition shown_size (s : HeaderSection) : Z :=
  if sectionHidden s then 0 else sectionSize s.

Fixpoint section_at (secs : list HeaderSection) (pos : Z) : Z :=
  match secs with
  | [] => -1
  | s :: rest =>
      if pos <? shown_size s then logical s
      else section_at rest (pos - shown_size s)
  end.

(** [QHeaderView::logicalIndexAt(QPoint)] of a horizontal header: the
    logical index of the section that covers the viewport position, -1 when
    there is none. *)
Definition logicalIndexAt (h : QHeaderView) (p : QPoint) : Z :=
  let v := int_add (px p) (offset h) in
  if v <? 0 then -1 else section_at (sections h) v.

Record QTreeView : Type := mkView {
  horizontalScrollBar_value : Z;
  verticalScrollBar_value : Z;
  header : QHeaderView
}.

(** The fields of [QStyleOptionViewItem] (and of its V4 extension, which
    the conversions between the two copy). *)
Record QStyleOptionViewItem : Type := mkOption {
  rect : QRect;
  font : QFont;
  state : Z;
  displayAlignment : Z;
  showDecorationSelected : bool
}.

Definition set_rect (o : QStyleOptionViewItem) (r : QRect)
  : QStyleOptionViewItem :=
  {| rect := r; font := font o; state := state o;
     displayAlignment := displayAlignment o;
     showDecorationSelected := showDecorationSelected o |}.

(** The calls a [QPainter] receives. *)
Inductive PaintCmd : Type :=
| StyledItemPaint (o : QStyleOptionViewItem) (i : QModelIndex)
| SetOpacity (o : double)
| SetRenderHint_Antialiasing
| SetPen (color : QRgb) (w : Z)
| SetBrush (g : QLinearGradient)
| DrawRoundedRect (r : QRect) (xRadius yRadius : Z)
| SetFont (f : QFont)
| DrawText_AlignCenter (r : QRect) (text : QString).

Definition QPainter := list PaintCmd.

(** The rounded boxes and the texts a sequence of calls draws. *)
Definition drawn_boxes (p : QPainter) : list QRect :=
  flat_map (fun c => match c with DrawRoundedRect r _ _ => [r] | _ => [] end) p.

Definition drawn_texts (p : QPainter) : list (QRect * QString) :=
  flat_map (fun c => match c with
                     | DrawText_AlignCenter r t => [(r, t)]
                     | _ => []
                     end) p.

Inductive EventType : Type :=
| ToolTip | QueryWhatsThis | WhatsThis | OtherEvent (n : Z).

Record QHelpEvent : Type := mkHelpEvent {
  type : EventType;
  globalPos : QPoint
}.

(** A view is known to the tooltip layer by its identity only. *)
Definition QAbstractItemView := Z.

Inductive Shown : Type :=
| QToolTip_showText (pos : QPoint) (text : QString) (w : QAbstractItemView)
| QWhatsThis_showText (pos : QPoint) (text : QString) (w : QAbstractItemView).

Definition Screen := list Shown.

(* ================================================================= *)
(** ** What the file uses and does not define *)

(** The widget toolkit. *)
Record Toolkit : Type := mkToolkit {
  (** the installed translators, each giving the empty string for a text
      it has no translation of *)
  translators : list (string -> string);
  (** [QString::toLongLong], [None] when the text is not a number *)
  string_toLongLong : string -> option Z;
  (** the rounding of a double to a 64-bit integer *)
  double_toLongLong : double -> Z;
  (** [QString::number(double)] *)
  number_double : double -> string;
  (** [QVariant::toString] of a double *)
  double_toString : double -> string;
  (** [QDateTime::fromTime_t(t).toString(f)], [f] the short format of the
      system locale *)
  dateTime_toString : Z -> QString;
  (** [QFontMetrics(font).width(text)] *)
  fontMetrics_width : QFont -> string -> Z;
  (** [QStyledItemDelegate::sizeHint] *)
  QStyledItemDelegate_sizeHint : QStyleOptionViewItem -> QModelIndex -> QSize
}.

(** The declarations of the application's headers: enumerator values,
    default arguments and the helpers of [Utilities]. *)
Record Headers : Type := mkHeaders {
  Column_Title : Z;
  (** default of the constructor's [indicator_column] *)
  default_indicator_column : Z;
  (** default of [DrawBox]'s [width] *)
  DrawBox_default_width : Z;
  FileType_value : FileType -> Z;
  PrettyTime : Z -> QString;
  PrettySize : Z -> QString
}.

(* ================================================================= *)
(** ** The delegates *)

Section Delegates.

Context (tk : Toolkit) (hd : Headers).

(** [QObject::tr]: the first non-empty translation the installed
    translators give, and the source text when there is none. *)
Fixpoint translate (ts : list (string -> string)) (sourceText : string)
  : string :=
  match ts with
  | [] => ""
  | t :: rest =>
      if string_is_empty (t sourceText) then translate rest sourceText
      else t sourceText
  end.

Definition tr (sourceText : string) : QString :=
  let result := translate (translators tk) sourceText in
  QStr (if string_is_empty result then sourceText else result).

(** [QVariant::toInt(&ok)]: the value and [ok]. *)
Definition toInt (v : QVariant) : Z * bool :=
  match v with
  | VBool b => (if b then 1 else 0, true)
  | VInt i => (i, true)
  | VUInt u => (wrap u, true)
  | VLongLong l => (wrap l, true)
  | VULongLong u => (wrap u, true)
  | VDouble d => (wrap (double_toLongLong tk d), true)
  | VFloat f => (wrap (double_toLongLong tk (double_of_float f)), true)
  | VString s =>
      match string_toLongLong tk (chars s) with
      | Some n => (wrap n, true)
      | None => (0, false)
      end
  | Invalid | VSize _ => (0, false)
  end.

(** [QVariant::toBool()]: a number is true when it is not zero, a double
    after its rounding to an integer. *)
Definition toBool (v : QVariant) : bool :=
  match v with
  | VBool b => b
  | VInt i | VUInt i | VLongLong i | VULongLong i => negb (i =? 0)
  | VDouble d => negb (double_toLongLong tk d =? 0)
  | VFloat f => negb (double_toLongLong tk (double_of_float f) =? 0)
  | VString s =>
      let str := string_lower (chars s) in
      negb (String.eqb str "0" || String.eqb str "false"
            || string_is_empty str)
  | Invalid | VSize _ => false
  end.

(** [QVariant::toString()]: null for a value that has no text form. *)
Definition toString (v : QVariant) : QString :=
  match v with
  | VBool b => QStr (if b then "true" else "false")
  | VInt i | VUInt i | VLongLong i | VULongLong i => number i
  | VDouble d => QStr (double_toString tk d)
  | VFloat f => QStr (double_toString tk (double_of_float f))
  | VString s => s
  | Invalid | VSize _ => QNull
  end.

(** *** QueuedItemDelegate *)

Definition kQueueBoxBorder : Z := 1.
Definition kQueueBoxCornerRadius : Z := 3.
Definition kQueueBoxLength : Z := 30.
Definition kQueueBoxGradientColor1 : QRgb := qRgb 102 150 227.
Definition kQueueBoxGradientColor2 : QRgb := qRgb 77 121 200.
Definition kQueueOpacitySteps : Z := 10.

(** The literal [0.4] is a double; the constant is its nearest [float]. *)
Definition kQueueOpacityLowerBound : float :=
  float_of_double (SFdiv dprec demax (double_of_int 4) (double_of_int 10)).

Definition kMinHeight : Z := 19.

Record QueuedItemDelegate : Type := mkQueuedItemDelegate {
  indicator_column_ : Z
}.

(** Lines 55 to 58 of [paint]: the opacity of the badge of [queue_pos].
    The product with [1.0 - kQueueOpacityLowerBound] is taken in double
    precision and rounded on assignment. *)
Definition paint_opacity (queue_pos : Z) : float :=
  let opacity :=
    float_of_int
      (int_sub kQueueOpacitySteps (qMin kQueueOpacitySteps queue_pos)) in
  let opacity := float_div opacity (float_of_int kQueueOpacitySteps) in
  let opacity :=
    float_of_double
      (double_mul (double_of_float opacity)
         (double_sub (double_of_int 1)
            (double_of_float kQueueOpacityLowerBound))) in
  let opacity := float_add opacity kQueueOpacityLowerBound in
  opacity.

(** The box [DrawBox] fills, at the right end of [line_rect]. *)
Definition box_rect (line_rect : QRect) (width : Z) : QRect :=
  let rect := line_rect in
  let rect :=
    setLeft rect (int_sub (int_sub (right rect) width) kQueueBoxBorder) in
  let rect := setWidth rect width in
  let rect := setTop rect (int_add (top rect) kQueueBoxBorder) in
  let rect :=
    setBottom rect (int_sub (int_sub (bottom rect) kQueueBoxBorder) 1) in
  rect.

Definition DrawBox (painter : QPainter) (line_rect : QRect) (font : QFont)
    (text : QString) (width : Z) : QPainter :=
  let smaller := font in
  let smaller := setPointSize smaller (int_sub (pointSize smaller) 2) in
  let smaller := setBold smaller true in
  let width :=
    if width =? -1
    then fontMetrics_width tk font (chars text ++ "  ")%string
    else width in
  let rect := box_rect line_rect width in
  (* computed by the source, and not used *)
  let text_rect := setBottom rect (int_add (bottom rect) 1) in
  let gradient := mkGradient (topLeft rect) (bottomLeft rect) [] in
  let gradient := setColorAt gradient (double_of_int 0) kQueueBoxGradientColor1 in
  let gradient := setColorAt gradient (double_of_int 1) kQueueBoxGradientColor2 in
  painter ++
  [ SetRenderHint_Antialiasing;
    SetPen Qt_white 1;
    SetBrush gradient;
    DrawRoundedRect rect kQueueBoxCornerRadius kQueueBoxCornerRadius;
    SetFont smaller;
    DrawText_AlignCenter rect text ].

Definition QueuedItemDelegate_paint (this : QueuedItemDelegate)
    (painter : QPainter) (option : QStyleOptionViewItem)
    (index : QModelIndex) : QPainter :=
  let painter := painter ++ [StyledItemPaint option index] in
  if column index =? indicator_column_ this then
    let queue_pos := fst (toInt (data index Role_QueuePosition)) in
    if negb (queue_pos =? -1) then
      let painter :=
        painter ++ [SetOpacity (double_of_float (paint_opacity queue_pos))] in
      let painter :=
        DrawBox painter (rect option) (font option)
          (number (int_add queue_pos 1)) kQueueBoxLength in
      painter ++ [SetOpacity (double_of_int 1)]
    else painter
  else painter.

Definition queue_indicator_size (this : QueuedItemDelegate)
    (index : QModelIndex) : Z :=
  if column index =? indicator_column_ this then
    let queue_pos := fst (toInt (data index Role_QueuePosition)) in
    if negb (queue_pos =? -1) then
      int_add kQueueBoxLength (int_mul kQueueBoxBorder 2)
    else 0
  else 0.

(** *** PlaylistDelegateBase *)

Record PlaylistDelegateBase : Type := mkPlaylistDelegateBase {
  queued : QueuedItemDelegate;
  view_ : QTreeView;
  suffix_ : QString
}.

(** The constructor: the indicator column is the default one. *)
Definition PlaylistDelegateBase_new (view : QTreeView) (suffix : QString)
  : PlaylistDelegateBase :=
  {| queued := mkQueuedItemDelegate (default_indicator_column hd);
     view_ := view;
     suffix_ := suffix |}.

Definition PlaylistDelegateBase_displayText (this : PlaylistDelegateBase)
    (value : QVariant) : QString :=
  let text :=
    match value with
    | VInt v => if v >? 0 then number v else QNull
    | VFloat v =>
        let v := double_of_float v in
        if double_gt0 v then QStr (number_double tk v) else QNull
    | VDouble v => if double_gt0 v then QStr (number_double tk v) else QNull
    | _ => toString value
    end in
  if negb (isNull text) && negb (isNull (suffix_ this))
  then qappend text (qappend (QStr " ") (suffix_ this))
  else text.

Definition PlaylistDelegateBase_sizeHint (this : PlaylistDelegateBase)
    (option : QStyleOptionViewItem) (index : QModelIndex) : QSize :=
  let size := QStyledItemDelegate_sizeHint tk option index in
  if height size <? kMinHeight then setHeight size kMinHeight else size.

Definition Adjusted (this : PlaylistDelegateBase)
    (option : QStyleOptionViewItem) (index : QModelIndex)
  : QStyleOptionViewItem :=
  let top_left :=
    mkPoint (int_neg (horizontalScrollBar_value (view_ this)))
            (int_neg (verticalScrollBar_value (view_ this))) in
  if negb (logicalIndexAt (header (view_ this)) top_left =? column index)
  then option
  else
    let ret := option in
    if toBool (data index Role_IsCurrent)
    then set_rect ret (setLeft (rect ret) (int_add (left (rect ret)) 20))
    else ret.

Definition PlaylistDelegateBase_paint (this : PlaylistDelegateBase)
    (painter : QPainter) (option : QStyleOptionViewItem)
    (index : QModelIndex) : QPainter :=
  let painter :=
    QueuedItemDelegate_paint (queued this) painter
      (Adjusted this option index) index in
  if column index =? Column_Title hd then
    if toBool (data index Role_StopAfter) then
      let rect := rect option in
      let rect :=
        setRight rect
          (int_sub (right rect) (queue_indicator_size (queued this) index)) in
      DrawBox painter rect (font option) (tr "stop")
        (DrawBox_default_width hd)
    else painter
  else painter.

(** *** The value formatters *)

Definition LengthItemDelegate_displayText (value : QVariant) : QString :=
  let (seconds, ok) := toInt value in
  if ok && (seconds >? 0) then PrettyTime hd seconds else QNull.

Definition SizeItemDelegate_displayText (value : QVariant) : QString :=
  let (bytes, ok) := toInt value in
  if ok then PrettySize hd bytes else QNull.

Definition DateItemDelegate_displayText (value : QVariant) : QString :=
  let (time, ok) := toInt value in
  if negb ok || (time =? -1) then QNull
  else dateTime_toString tk (to_uint time).

(** The [case] labels of [FileTypeItemDelegate::displayText], in order;
    [Type_Unknown] shares the [default] label. *)
Definition type_labels : list (FileType * string) :=
  [ (Type_Asf, "ASF"); (Type_Flac, "FLAC"); (Type_Mp4, "MP4");
    (Type_Mpc, "MPC"); (Type_Mpeg, "MP3"); (Type_OggFlac, "Ogg FLAC");
    (Type_OggSpeex, "Ogg Speex"); (Type_OggVorbis, "Ogg Vorbis");
    (Type_Aiff, "AIFF"); (Type_Wav, "WAV"); (Type_TrueAudio, "TrueAudio");
    (Type_Stream, "Stream") ].

Fixpoint switch_type (cases : list (FileType * string)) (type : Z)
  : QString :=
  match cases with
  | [] => tr "Unknown"
  | (c, label) :: rest =>
      if type =? FileType_value hd c then tr label
      else switch_type rest type
  end.

Definition FileTypeItemDelegate_displayText (value : QVariant) : QString :=
  let (type, ok) := toInt value in
  if negb ok then tr "Unknown" else switch_type type_labels type.

(** *** Virtual dispatch of [displayText] and [helpEvent] *)

(** The classes that derive from [PlaylistDelegateBase]; those that do not
    override [displayText] count as the base class. *)
Inductive DelegateClass : Type :=
| BaseClass
| LengthItemDelegate
| SizeItemDelegate
| DateItemDelegate
| FileTypeItemDelegate.

Definition displayText (cls : DelegateClass) (this : PlaylistDelegateBase)
    (value : QVariant) : QString :=
  match cls with
  | BaseClass => PlaylistDelegateBase_displayText this value
  | LengthItemDelegate => LengthItemDelegate_displayText value
  | SizeItemDelegate => SizeItemDelegate_displayText value
  | DateItemDelegate => DateItemDelegate_displayText value
  | FileTypeItemDelegate => FileTypeItemDelegate_displayText value
  end.

(** [event] and [view] are pointers: [None] is the null pointer.  The
    result is the returned boolean and the screen after the call. *)
Definition helpEvent (cls : DelegateClass) (this : PlaylistDelegateBase)
    (event : option QHelpEvent) (view : option QAbstractItemView)
    (option : QStyleOptionViewItem) (index : QModelIndex)
    (screen : Screen) : bool * Screen :=
  match event, view with
  | Some he, Some view =>
      let text := displayText cls this (data index DisplayRole) in
      if isEmpty text then (false, screen)
      else
        match type he with
        | ToolTip =>
            (true, screen ++ [QToolTip_showText (globalPos he) text view])
        | QueryWhatsThis => (true, screen)
        | WhatsThis =>
            (true, screen ++ [QWhatsThis_showText (globalPos he) text view])
        | OtherEvent _ => (false, screen)
        end
  | _, _ => (false, screen)
  end.

End Delegates.

(* ================================================================= *)
(** ** Concrete surroundings, for evaluating the definitions *)

Fixpoint parse_digits (s : string) (acc : Z) : option Z :=
  match s with
  | EmptyString => Some acc
  | String c r =>
      let n := Z.of_nat (nat_of_ascii c) in
      if (48 <=? n) && (n <=? 57) then parse_digits r (10 * acc + (n - 48))
      else None
  end.

(** Decimal texts with an optional sign. *)
Definition parse_decimal (s : string) : option Z :=
  match s with
  | EmptyString => None
  | String "-" EmptyString => None
  | String "-" r => option_map Z.opp (parse_digits r 0)
  | _ => parse_digits s 0
  end.

(** A toolkit with no translator installed, rows 16 pixels high and
    characters 7 pixels wide; doubles are printed as a placeholder. *)
Definition plain_toolkit : Toolkit :=
  {| translators := [];
     string_toLongLong := parse_decimal;
     double_toLongLong := fun _ => 0;
     number_double := fun _ => "<double>";
     double_toString := fun _ => "<double>";
     dateTime_toString := fun t => QStr ("@" ++ chars (number t))%string;
     fontMetrics_width := fun _ s => 7 * Z.of_nat (String.length s);
     QStyledItemDelegate_sizeHint := fun _ _ => mkSize 100 16 |}.

(** The same toolkit with rows 24 pixels high. *)
Definition tall_toolkit : Toolkit :=
  {| translators := translators plain_toolkit;
     string_toLongLong := string_toLongLong plain_toolkit;
     double_toLongLong := double_toLongLong plain_toolkit;
     number_double := number_double plain_toolkit;
     double_toString := double_toString plain_toolkit;
     dateTime_toString := dateTime_toString plain_toolkit;
     fontMetrics_width := fontMetrics_width plain_toolkit;
     QStyledItemDelegate_sizeHint := fun _ _ => mkSize 100 24 |}.

(** The enumerator values of the application's headers: [Column_Title] is
    the first column, the file types count from [Type_Unknown = 0] and
    [Type_Stream] is 99.  The two [Utilities] helpers are placeholders. *)
Definition song_headers : Headers :=
  {| Column_Title := 0;
     default_indicator_column := 0;
     DrawBox_default_width := -1;
     FileType_value := fun t =>
       match t with
       | Type_Unknown => 0 | Type_Asf => 1 | Type_Flac => 2 | Type_Mp4 => 3
       | Type_Mpc => 4 | Type_Mpeg => 5 | Type_OggFlac => 6
       | Type_OggSpeex => 7 | Type_OggVorbis => 8 | Type_Aiff => 9
       | Type_Wav => 10 | Type_TrueAudio => 11 | Type_Stream => 99
       end;
     PrettyTime := fun s => QStr (chars (number s) ++ " s")%string;
     PrettySize := fun b => QStr (chars (number b) ++ " bytes")%string |}.

Definition sample_rect : QRect := mkRect 0 0 199 17.
Definition sample_font : QFont := mkFont "Sans" 10 false.
Definition sample_option : QStyleOptionViewItem :=
  mkOption sample_rect sample_font 0 0 false.

(** A row of the playlist seen in column [col]: its title, whether it is
    the current song, stops the playback, and its place in the queue. *)
Definition sample_index (col : Z) (title : string) (current stop : bool)
    (queue_pos : Z) : QModelIndex :=
  {| row := 0; column := col;
     data := fun r =>
       match r with
       | DisplayRole => VString (QStr title)
       | ToolTipRole => VString (QStr "raw tooltip")
       | Role_IsCurrent => VBool current
       | Role_StopAfter => VBool stop
       | Role_QueuePosition => VInt queue_pos
       | OtherRole _ => Invalid
       end |}.

(** A view of three columns, the first of them hidden, not scrolled. *)
Definition sample_view : QTreeView :=
  {| horizontalScrollBar_value := 0;
     verticalScrollBar_value := 0;
     header := mkHeader [mkSection 2 40 true; mkSection 0 120 false;
                         mkSection 1 80 false] 0 |}.

(** A delegate of [sample_view], as its constructor builds it. *)
Definition sample_delegate (suffix : QString) : PlaylistDelegateBase :=
  PlaylistDelegateBase_new song_headers sample_view suffix.

(* ================================================================= *)
(** ** The editors and the tag completion *)

(** [QRect::width()] and [QRect::height()]. *)
Definition rect_width (r : QRect) : Z := x2 r - x1 r + 1.
Definition rect_height (r : QRect) : Z := y2 r - y1 r + 1.



(** An album of the library; [album_name] is the field the completion
    reads. *)
Record Album : Type := mkAlbum {
  artist : QString;
  album_name : QString
}.

(** The two queries of [LibraryBackend] the completion makes, by their
    results. *)
Record LibraryBackend : Type := mkBackend {
  GetAllArtists : list QString;
  GetAllAlbums : list Album
}.

(** The values of the three [Playlist::Column] enumerators that
    [TagCompletionModel] names. *)
Record Columns : Type := mkColumns {
  Column_Artist : Z;
  Column_Album : Z;
  Column_AlbumArtist : Z
}.

(** A [QStringListModel], by its string list; it is empty when built. *)
Definition QStringListModel := list QString.

Definition setStringList (model : QStringListModel) (l : list QString)
  : QStringListModel := l.

(** The constructor of [TagCompletionModel]. *)
Definition TagCompletionModel_new (cols : Columns) (backend : LibraryBackend)
    (column : Z) : QStringListModel :=
  let this : QStringListModel := [] in
  if column =? Column_Artist cols then
    setStringList this (GetAllArtists backend)
  else if column =? Column_Album cols then
    let albums := GetAllAlbums backend in
    let album_names :=
      fold_left (fun names album => names ++ [album_name album]) albums [] in
    setStringList this album_names
  else if column =? Column_AlbumArtist cols then this
  else this.

Inductive CaseSensitivity : Type := CaseInsensitive | CaseSensitive.

(** A completer: its model, when it has one, and how it compares. *)
Record QCompleter : Type := mkCompleter {
  completer_model : Datatypes.option QStringListModel;
  caseSensitivity : CaseSensitivity
}.

(** A new [QCompleter] has no model and is case sensitive. *)
Definition QCompleter_new : QCompleter :=
  {| completer_model := None; caseSensitivity := CaseSensitive |}.

Definition setModel (c : QCompleter) (m : QStringListModel) : QCompleter :=
  {| completer_model := Some m; caseSensitivity := caseSensitivity c |}.

Definition setCaseSensitivity (c : QCompleter) (cs : CaseSensitivity)
  : QCompleter :=
  {| completer_model := completer_model c; caseSensitivity := cs |}.

(** A line edit: the widget it belongs to ([None] for a null parent), its
    text and the completer attached to it. *)
Record QLineEdit : Type := mkLineEdit {
  lineEdit_parent : Datatypes.option Z;
  lineEdit_text : QString;
  completer : Datatypes.option QCompleter
}.

Definition QLineEdit_new (parent : Datatypes.option Z) : QLineEdit :=
  {| lineEdit_parent := parent; lineEdit_text := QNull; completer := None |}.

Definition setCompleter (e : QLineEdit) (c : QCompleter) : QLineEdit :=
  {| lineEdit_parent := lineEdit_parent e;
     lineEdit_text := lineEdit_text e;
     completer := Some c |}.

Definition TextItemDelegate_createEditor (parent : Datatypes.option Z)
    (option : QStyleOptionViewItem) (index : QModelIndex) : QLineEdit :=
  QLineEdit_new parent.

(** The constructor of [TagCompleter]: the completer, owned by the editor,
    is returned inside it. *)
Definition TagCompleter_new (cols : Columns) (backend : LibraryBackend)
    (column : Z) (editor : QLineEdit) : QLineEdit :=
  let this := QCompleter_new in
  let this := setModel this (TagCompletionModel_new cols backend column) in
  let this := setCaseSensitivity this CaseInsensitive in
  setCompleter editor this.

Record TagCompletionItemDelegate : Type := mkTagCompletionItemDelegate {
  backend_ : LibraryBackend;
  column_ : Z
}.

Definition TagCompletionItemDelegate_createEditor (cols : Columns)
    (this : TagCompletionItemDelegate) (parent : Datatypes.option Z)
    (option : QStyleOptionViewItem) (index : QModelIndex) : QLineEdit :=
  let editor := QLineEdit_new parent in
  TagCompleter_new cols (backend_ this) (column_ this) editor.

(** A library of two artists and three albums, and column values. *)
Definition sample_backend : LibraryBackend :=
  {| GetAllArtists := [QStr "Air"; QStr "Can"];
     GetAllAlbums :=
       [mkAlbum (QStr "Air") (QStr "Moon Safari");
        mkAlbum (QStr "Can") (QStr "Tago Mago");
        mkAlbum (QStr "Can") (QStr "Future Days")] |}.

Definition sample_columns : Columns :=
  {| Column_Artist := 1; Column_Album := 2; Column_AlbumArtist := 3 |}.

(* ================================================================= *)
(** ** Properties *)

Lemma wrap_small (z : Z) : in_int z -> wrap z = z.
Proof.
  unfold in_int, INT_MIN, INT_MAX, wrap. intros H.
  rewrite Z.mod_small; lia.
Qed.

Lemma wrap_in_int (z : Z) : in_int (wrap z).
Proof.
  unfold in_int, INT_MIN, INT_MAX, wrap.
  pose proof (Z.mod_pos_bound (z + 2 ^ 31) (2 ^ 32) ltac:(lia)). lia.
Qed.

(** Arithmetic modulo 2^32: an inner reduction can be dropped. *)
Lemma wrap_add_l (a b : Z) : wrap (wrap a + b) = wrap (a + b).
Proof.
  unfold wrap. f_equal.
  replace (a + 2 ^ 31 - (a + 2 ^ 31) mod 2 ^ 32)
    with (2 ^ 32 * ((a + 2 ^ 31) / 2 ^ 32))
    by (pose proof (Z.div_mod (a + 2 ^ 31) (2 ^ 32) ltac:(lia)); lia).
  replace ((a + 2 ^ 31) mod 2 ^ 32 - 2 ^ 31 + b + 2 ^ 31)
    with (a + b + 2 ^ 31 + (- ((a + 2 ^ 31) / 2 ^ 32)) * 2 ^ 32).
  - apply Z.mod_add. lia.
  - pose proof (Z.div_mod (a + 2 ^ 31) (2 ^ 32) ltac:(lia)). lia.
Qed.

Lemma string_is_empty_false (s : string) :
  string_is_empty s = false <-> s <> "".
Proof.
  destruct s; simpl; split; intros H; congruence || discriminate.
Qed.

Section Properties.

Context (tk : Toolkit) (hd : Headers).

Lemma translate_nil (s : string) : translate [] s = "".
Proof. reflexivity. Qed.

(** A translation is never empty unless the source text is. *)
Lemma tr_not_empty (s : string) :
  string_is_empty s = false -> isEmpty (tr tk s) = false.
Proof.
  intros Hs. unfold tr, isEmpty. simpl.
  destruct (string_is_empty (translate (translators tk) s)) eqn:E; assumption.
Qed.

Lemma tr_not_null (s : string) : isNull (tr tk s) = false.
Proof. reflexivity. Qed.

Lemma switch_type_label (cases : list (FileType * string)) (t : Z) :
  switch_type tk hd cases t = tr tk "Unknown" \/
  exists c label, In (c, label) cases /\ t = FileType_value hd c /\
                  switch_type tk hd cases t = tr tk label.
Proof.
  induction cases as [|[c label] rest IH]; simpl.
  - left. reflexivity.
  - destruct (t =? FileType_value hd c) eqn:E.
    + right. exists c, label. apply Z.eqb_eq in E. auto.
    + destruct IH as [IH | (c' & l' & Hin & Ht & Hs)]; [left; exact IH|].
      right. exists c', l'. auto.
Qed.

Lemma switch_type_default (cases : list (FileType * string)) (t : Z) :
  (forall c label, In (c, label) cases -> t <> FileType_value hd c) ->
  switch_type tk hd cases t = tr tk "Unknown".
Proof.
  induction cases as [|[c label] rest IH]; simpl; intros H; [reflexivity|].
  destruct (t =? FileType_value hd c) eqn:E.
  - apply Z.eqb_eq in E. exfalso. apply (H c label); auto.
  - apply IH. intros c' l' Hin. apply (H c' l'). auto.
Qed.

Lemma type_labels_recognised (c : FileType) (label : string) :
  In (c, label) type_labels ->
  In c recognised_types /\ string_is_empty label = false.
Proof.
  unfold type_labels, recognised_types. simpl. intros H.
  repeat (destruct H as [H | H];
          [injection H as <- <-; split; [simpl; tauto | reflexivity] |]).
  contradiction.
Qed.

Lemma tr_untranslated (s : string) :
  translators tk = [] -> tr tk s = QStr s.
Proof.
  intros H. unfold tr. rewrite H. reflexivity.
Qed.

Lemma double_le0_not_gt0 (x : double) :
  double_le0 x = true -> double_gt0 x = false.
Proof.
  unfold double_le0, double_gt0, SFleb, SFltb.
  destruct x as [s | s | | s m e]; try destruct s; simpl;
    congruence || reflexivity.
Qed.

(** C1, as amended.  A value that does not convert to an integer is shown
    as a blank (null) text by [LengthItemDelegate], [SizeItemDelegate] and
    [DateItemDelegate]; [FileTypeItemDelegate] shows it as the translated
    label "Unknown", which is not blank. *)
Theorem malformed_value_text (value : QVariant) :
  snd (toInt tk value) = false ->
  LengthItemDelegate_displayText tk hd value = QNull /\
  SizeItemDelegate_displayText tk hd value = QNull /\
  DateItemDelegate_displayText tk value = QNull /\
  FileTypeItemDelegate_displayText tk hd value = tr tk "Unknown" /\
  isEmpty (FileTypeItemDelegate_displayText tk hd value) = false.
Proof.
  intros Hok.
  unfold LengthItemDelegate_displayText, SizeItemDelegate_displayText,
    DateItemDelegate_displayText, FileTypeItemDelegate_displayText.
  destruct (toInt tk value) as [n ok]. simpl in Hok. subst ok. simpl.
  repeat split. apply tr_not_empty. reflexivity.
Qed.

(** C9.  A value that converts to an integer which is the value of none of
    the twelve file types with a label (so also the value of
    [Type_Unknown]) is shown as the translated label "Unknown", which is
    the text "Unknown" itself when no translator is installed; and the
    text [FileTypeItemDelegate::displayText] returns is never blank,
    whatever the value. *)
Theorem unknown_file_type_text (value : QVariant) (type : Z) :
  toInt tk value = (type, true) ->
  (forall c, In c recognised_types -> type <> FileType_value hd c) ->
  FileTypeItemDelegate_displayText tk hd value = tr tk "Unknown" /\
  (translators tk = [] ->
   FileTypeItemDelegate_displayText tk hd value = QStr "Unknown") /\
  (forall v, isEmpty (FileTypeItemDelegate_displayText tk hd v) = false /\
             isNull (FileTypeItemDelegate_displayText tk hd v) = false).
Proof.
  intros Hconv Hnone.
  assert (Hu : FileTypeItemDelegate_displayText tk hd value = tr tk "Unknown").
  { unfold FileTypeItemDelegate_displayText. rewrite Hconv. cbn [negb].
    apply switch_type_default. intros c label Hin.
    apply Hnone. apply (type_labels_recognised c label Hin). }
  split; [exact Hu|]. split.
  - intros Hnil. rewrite Hu. apply tr_untranslated. exact Hnil.
  - intros v. unfold FileTypeItemDelegate_displayText.
    destruct (toInt tk v) as [t ok]. destruct ok; cbn [negb].
    + destruct (switch_type_label type_labels t)
        as [-> | (c & label & Hin & _ & ->)].
      * split; [apply tr_not_empty|]; reflexivity.
      * split; [|reflexivity]. apply tr_not_empty.
        apply (type_labels_recognised c label Hin).
    + split; [apply tr_not_empty|]; reflexivity.
Qed.

(** C10.  The timestamp -1 converts to an integer and is shown as a blank
    (null) text, as a value that does not convert is; every other integer a
    value converts to is shown as the date and time the toolkit prints for
    it. *)
Theorem date_text (value : QVariant) (time : Z) :
  toInt tk value = (time, true) ->
  DateItemDelegate_displayText tk value =
    (if time =? -1 then QNull else dateTime_toString tk (to_uint time)) /\
  toInt tk (VInt (-1)) = (-1, true) /\
  DateItemDelegate_displayText tk (VInt (-1)) = QNull /\
  DateItemDelegate_displayText tk Invalid = QNull.
Proof.
  intros Hconv. unfold DateItemDelegate_displayText. rewrite Hconv.
  simpl. repeat split.
Qed.

(** C3, as amended.  For a cell value [v] of the variant type [int],
    [float] or [double], [PlaylistDelegateBase::displayText] returns a
    blank (null) text when [v <= 0] and otherwise the digits of [v]; an
    integer of another variant type ([uint], [qlonglong], [qulonglong])
    takes the default branch and is shown by its digits whatever its
    sign.  For every value, the text is the one a delegate without suffix
    returns, followed by a space and the suffix when that text is not null
    and the suffix is not null. *)
Theorem displayText_of_numbers (this : PlaylistDelegateBase) :
  let displayText := PlaylistDelegateBase_displayText tk this in
  let plain :=
    PlaylistDelegateBase_displayText tk
      (mkPlaylistDelegateBase (queued this) (view_ this) QNull) in
  let suffixed (text : QString) :=
    match suffix_ this with
    | QNull => text
    | QStr s => QStr (chars text ++ " " ++ s)%string
    end in
  (forall v : Z,
      displayText (VInt v) =
        if v >? 0 then suffixed (number v) else QNull) /\
  (forall v : double,
      displayText (VDouble v) =
        if double_gt0 v then suffixed (QStr (number_double tk v))
        else QNull) /\
  (forall v : float,
      displayText (VFloat v) =
        if double_gt0 (double_of_float v)
        then suffixed (QStr (number_double tk (double_of_float v)))
        else QNull) /\
  (forall v : Z, v <= 0 -> displayText (VInt v) = QNull) /\
  (forall v : double, double_le0 v = true -> displayText (VDouble v) = QNull) /\
  (forall v : float,
      double_le0 (double_of_float v) = true -> displayText (VFloat v) = QNull) /\
  (forall value : QVariant,
      displayText value =
        if negb (isNull (plain value)) && negb (isNull (suffix_ this))
        then QStr (chars (plain value) ++ " " ++ chars (suffix_ this))%string
        else plain value) /\
  (forall v : Z,
      displayText (VUInt v) = suffixed (number v) /\
      displayText (VLongLong v) = suffixed (number v) /\
      displayText (VULongLong v) = suffixed (number v)).
Proof.
  unfold PlaylistDelegateBase_displayText, qappend. cbn zeta.
  assert (Hi : forall v : Z,
    (let text := if v >? 0 then number v else QNull in
     if negb (isNull text) && negb (isNull (suffix_ this))
     then QStr (chars text ++ chars (QStr (chars (QStr " ") ++ chars (suffix_ this))))%string
     else text) =
    (if v >? 0
     then match suffix_ this with
          | QNull => number v
          | QStr s => QStr (chars (number v) ++ " " ++ s)%string
          end
     else QNull)).
  { intros v. destruct (v >? 0); destruct (suffix_ this); reflexivity. }
  assert (Hd : forall v : double,
    (let text := if double_gt0 v then QStr (number_double tk v) else QNull in
     if negb (isNull text) && negb (isNull (suffix_ this))
     then QStr (chars text ++ chars (QStr (chars (QStr " ") ++ chars (suffix_ this))))%string
     else text) =
    (if double_gt0 v
     then match suffix_ this with
          | QNull => QStr (number_double tk v)
          | QStr s => QStr (number_double tk v ++ " " ++ s)%string
          end
     else QNull)).
  { intros v. destruct (double_gt0 v); destruct (suffix_ this); reflexivity. }
  refine (conj Hi (conj Hd (conj _ (conj _ (conj _ (conj _ (conj _ _))))))).
  - intros v. apply (Hd (double_of_float v)).
  - intros v Hv. cbn zeta in Hi. rewrite Hi.
    destruct (v >? 0) eqn:E; [|reflexivity]. apply Z.gtb_lt in E. lia.
  - intros v Hv. cbn zeta in Hd. rewrite Hd.
    rewrite (double_le0_not_gt0 v Hv). reflexivity.
  - intros v Hv. cbn zeta in Hd. rewrite (Hd (double_of_float v)).
    rewrite (double_le0_not_gt0 _ Hv). reflexivity.
  - intros value. simpl suffix_.
    replace (negb (isNull QNull)) with false by reflexivity.
    rewrite !Bool.andb_false_r. reflexivity.
  - intros v. unfold toString, number.
    destruct (suffix_ this); repeat split.
Qed.

(** C5.  The size [PlaylistDelegateBase::sizeHint] returns is at least
    [kMinHeight] = 19 high: it is the hint of the base class with its
    height raised to 19 when that is lower, and the hint of the base class
    itself otherwise. *)
Theorem sizeHint_min_height (this : PlaylistDelegateBase)
    (option : QStyleOptionViewItem) (index : QModelIndex) :
  let base := QStyledItemDelegate_sizeHint tk option index in
  let size := PlaylistDelegateBase_sizeHint tk this option index in
  kMinHeight = 19 /\
  kMinHeight <= height size /\
  size = (if height base <? 19 then mkSize (width base) 19 else base).
Proof.
  unfold PlaylistDelegateBase_sizeHint, kMinHeight, setHeight. cbn zeta.
  destruct (height (QStyledItemDelegate_sizeHint tk option index) <? 19) eqn:E.
  - repeat split. simpl. lia.
  - apply Z.ltb_ge in E. repeat split. exact E.
Qed.

Lemma drawn_texts_app (p q : QPainter) :
  drawn_texts (p ++ q) = drawn_texts p ++ drawn_texts q.
Proof. apply flat_map_app. Qed.

Lemma drawn_boxes_app (p q : QPainter) :
  drawn_boxes (p ++ q) = drawn_boxes p ++ drawn_boxes q.
Proof. apply flat_map_app. Qed.

(** What [DrawBox] adds to the painter: one box and one text, both in
    [box_rect]. *)
Lemma DrawBox_drawn (painter : QPainter) (line_rect : QRect) (f : QFont)
    (text : QString) (w : Z) :
  let w' :=
    if w =? -1 then fontMetrics_width tk f (chars text ++ "  ")%string
    else w in
  drawn_texts (DrawBox tk painter line_rect f text w) =
    drawn_texts painter ++ [(box_rect line_rect w', text)] /\
  drawn_boxes (DrawBox tk painter line_rect f text w) =
    drawn_boxes painter ++ [box_rect line_rect w'].
Proof.
  unfold DrawBox. cbn zeta.
  rewrite drawn_texts_app, drawn_boxes_app. split; reflexivity.
Qed.

(** What [QueuedItemDelegate::paint] adds to the painter. *)
Lemma QueuedItemDelegate_paint_drawn (this : QueuedItemDelegate)
    (painter : QPainter) (option : QStyleOptionViewItem)
    (index : QModelIndex) :
  let queue_pos := fst (toInt tk (data index Role_QueuePosition)) in
  let badge :=
    (column index =? indicator_column_ this) && negb (queue_pos =? -1) in
  let box := box_rect (rect option) kQueueBoxLength in
  let painted := QueuedItemDelegate_paint tk this painter option index in
  drawn_texts painted =
    drawn_texts painter ++
    (if badge then [(box, number (int_add queue_pos 1))] else []) /\
  drawn_boxes painted =
    drawn_boxes painter ++ (if badge then [box] else []).
Proof.
  cbn zeta. unfold QueuedItemDelegate_paint.
  set (queue_pos := fst (toInt tk (data index Role_QueuePosition))).
  set (styled := painter ++ [StyledItemPaint option index]).
  assert (Hbase : drawn_texts styled = drawn_texts painter /\
                  drawn_boxes styled = drawn_boxes painter).
  { unfold styled. rewrite drawn_texts_app, drawn_boxes_app. simpl.
    rewrite !app_nil_r. split; reflexivity. }
  destruct Hbase as [Hbt Hbb].
  destruct (column index =? indicator_column_ this);
    [destruct (queue_pos =? -1)|]; cbn [negb andb];
    rewrite ?app_nil_r; try (split; assumption).
  rewrite drawn_texts_app, drawn_boxes_app.
  destruct (DrawBox_drawn
              (styled ++
               [SetOpacity (double_of_float (paint_opacity queue_pos))])
              (rect option) (font option)
              (number (int_add queue_pos 1)) kQueueBoxLength) as [Ht Hb].
  rewrite Ht, Hb. rewrite !drawn_texts_app, !drawn_boxes_app, Hbt, Hbb.
  simpl. rewrite !app_nil_r. split; reflexivity.
Qed.

(** C2, as amended.  [QueuedItemDelegate::paint] draws the badge, one
    rounded box holding the number [queue_pos + 1], exactly when the
    column of the index is the indicator column and the queue position of
    the row is not -1; it draws no badge for the queue position -1. *)
Theorem queue_badge_drawn (this : QueuedItemDelegate) (painter : QPainter)
    (option : QStyleOptionViewItem) (index : QModelIndex) :
  let queue_pos := fst (toInt tk (data index Role_QueuePosition)) in
  let badge :=
    (column index =? indicator_column_ this) && negb (queue_pos =? -1) in
  let box := box_rect (rect option) kQueueBoxLength in
  let painted := QueuedItemDelegate_paint tk this painter option index in
  drawn_texts painted =
    drawn_texts painter ++
    (if badge then [(box, number (int_add queue_pos 1))] else []) /\
  drawn_boxes painted =
    drawn_boxes painter ++ (if badge then [box] else []) /\
  (queue_pos = -1 ->
   drawn_texts painted = drawn_texts painter /\
   drawn_boxes painted = drawn_boxes painter) /\
  (0 <= queue_pos < INT_MAX -> int_add queue_pos 1 = queue_pos + 1).
Proof.
  cbn zeta.
  destruct (QueuedItemDelegate_paint_drawn this painter option index)
    as [Ht Hb]. cbn zeta in Ht, Hb.
  refine (conj Ht (conj Hb (conj _ _))).
  - intros Hq. rewrite Ht, Hb, Hq. cbn [Z.eqb negb Pos.eqb].
    rewrite Bool.andb_false_r, !app_nil_r. split; reflexivity.
  - intros Hq. apply wrap_small. unfold in_int, INT_MIN, INT_MAX in *. lia.
Qed.

(** The opacity depends on the queue position through
    [min(kQueueOpacitySteps, queue_pos)] only. *)
Lemma paint_opacity_min (p : Z) :
  paint_opacity p = paint_opacity (Z.min 10 p).
Proof.
  unfold paint_opacity.
  replace (qMin kQueueOpacitySteps (Z.min 10 p))
    with (qMin kQueueOpacitySteps p); [reflexivity|].
  unfold qMin, kQueueOpacitySteps.
  destruct (p <? 10) eqn:E1; destruct (Z.min 10 p <? 10) eqn:E2;
    try apply Z.ltb_lt in E1; try apply Z.ltb_ge in E1;
    try apply Z.ltb_lt in E2; try apply Z.ltb_ge in E2; lia.
Qed.

Lemma step_cases (k : Z) :
  0 <= k <= 10 ->
  k = 0 \/ k = 1 \/ k = 2 \/ k = 3 \/ k = 4 \/ k = 5 \/ k = 6 \/ k = 7 \/
  k = 8 \/ k = 9 \/ k = 10.
Proof. lia. Qed.

Ltac each_step H :=
  repeat (destruct H as [H | H]; [subst|]); [..|subst].

(** The eleven values of the ramp do not increase. *)
Lemma paint_opacity_steps_decrease (j k : Z) :
  0 <= j <= 10 -> 0 <= k <= 10 -> j <= k ->
  SFleb (paint_opacity k) (paint_opacity j) = true.
Proof.
  intros Hj Hk Hjk.
  apply step_cases in Hj. apply step_cases in Hk.
  each_step Hj; each_step Hk; try lia; vm_compute; reflexivity.
Qed.

(** C4, as amended.  For a queue position [p >= 0] the opacity of the badge
    is the linear interpolation 0.4 + 0.6 * (10 - min(10, p)) / 10 up to
    the rounding of [float] arithmetic: it differs from it by 2^-23 at
    most.  It is exactly 1.0 at [p = 0], does not increase with [p], is
    exactly [kQueueOpacityLowerBound] (the [float] nearest to 0.4) for
    every [p >= 10], and lies between [kQueueOpacityLowerBound] and 1.0,
    so between 0.4 and 1.0. *)
Theorem opacity_ramp (p : Z) :
  0 <= p ->
  (exists q : Q,
      float_value (paint_opacity p) = Some q /\
      (Qabs (q - ((4 # 10) + (6 # 10) * inject_Z (10 - Z.min 10 p) / (10 # 1)))
       <= 1 # 2 ^ 23)%Q /\
      (4 # 10 <= q)%Q /\ (q <= 1)%Q) /\
  paint_opacity 0 = float_of_int 1 /\
  (forall p', p <= p' -> SFleb (paint_opacity p') (paint_opacity p) = true) /\
  (10 <= p -> paint_opacity p = kQueueOpacityLowerBound) /\
  float_value kQueueOpacityLowerBound = Some (13421773 # 2 ^ 25) /\
  SFleb kQueueOpacityLowerBound (paint_opacity p) = true /\
  SFleb (paint_opacity p) (float_of_int 1) = true.
Proof.
  intros Hp.
  assert (Hk : 0 <= Z.min 10 p <= 10) by lia.
  refine (conj _ (conj _ (conj _ (conj _ (conj _ (conj _ _)))))).
  - rewrite (paint_opacity_min p).
    apply step_cases in Hk. remember (Z.min 10 p) as k eqn:Ek. clear Ek.
    each_step Hk; eexists; (split; [vm_compute; reflexivity|]);
      (split; [|split]); vm_compute; discriminate.
  - vm_compute. reflexivity.
  - intros p' Hp'. rewrite (paint_opacity_min p), (paint_opacity_min p').
    apply paint_opacity_steps_decrease; lia.
  - intros H10. rewrite (paint_opacity_min p).
    replace (Z.min 10 p) with 10 by lia. vm_compute. reflexivity.
  - vm_compute. reflexivity.
  - rewrite (paint_opacity_min p).
    apply step_cases in Hk. remember (Z.min 10 p) as k eqn:Ek. clear Ek.
    each_step Hk; vm_compute; reflexivity.
  - rewrite (paint_opacity_min p).
    apply step_cases in Hk. remember (Z.min 10 p) as k eqn:Ek. clear Ek.
    each_step Hk; vm_compute; reflexivity.
Qed.

(** The section at the start of the header is the first one that is shown
    with a positive size. *)
Lemma section_at_start (secs : list HeaderSection) :
  Forall (fun s => 0 <= sectionSize s) secs ->
  section_at secs 0 =
    match find (fun s => 0 <? shown_size s) secs with
    | Some s => logical s
    | None => -1
    end.
Proof.
  induction 1 as [|s rest Hs _ IH]; simpl; [reflexivity|].
  destruct (0 <? shown_size s) eqn:E; [reflexivity|].
  apply Z.ltb_ge in E.
  assert (H0 : shown_size s = 0).
  { unfold shown_size in *. destruct (sectionHidden s); lia. }
  rewrite H0. exact IH.
Qed.

(** In a view whose header scrolls with the horizontal scroll bar, the
    column [Adjusted] compares with is the first visible column. *)
Lemma logicalIndexAt_top_left (view : QTreeView) :
  offset (header view) = horizontalScrollBar_value view ->
  0 <= horizontalScrollBar_value view <= INT_MAX ->
  Forall (fun s => 0 <= sectionSize s) (sections (header view)) ->
  logicalIndexAt (header view)
    (mkPoint (int_neg (horizontalScrollBar_value view))
             (int_neg (verticalScrollBar_value view))) =
    match find (fun s => 0 <? shown_size s) (sections (header view)) with
    | Some s => logical s
    | None => -1
    end.
Proof.
  intros Hoff Hrange Hsizes.
  unfold logicalIndexAt, int_neg, int_add. simpl px. rewrite Hoff.
  rewrite wrap_add_l.
  replace (- horizontalScrollBar_value view + horizontalScrollBar_value view)
    with 0 by lia.
  change (wrap 0) with 0. change (0 <? 0) with false. cbv iota.
  apply section_at_start. exact Hsizes.
Qed.


(** C7.  For a tooltip event, with an event and a view that are not null,
    [helpEvent] shows the text [displayText] gives for the display data of
    the index and returns true, unless that text is empty; when the text is
    empty, or the event or the view is null, it returns false and shows
    nothing.  The tooltip-role data of the index has no part in it. *)
Theorem helpEvent_tooltip (cls : DelegateClass) (this : PlaylistDelegateBase)
    (option : QStyleOptionViewItem) (index : QModelIndex)
    (screen : Screen) :
  let text := displayText tk hd cls this (data index DisplayRole) in
  (forall (he : QHelpEvent) (view : QAbstractItemView),
      type he = ToolTip ->
      isEmpty text = false ->
      helpEvent tk hd cls this (Some he) (Some view) option index screen =
        (true, screen ++ [QToolTip_showText (globalPos he) text view])) /\
  (forall (event : Datatypes.option QHelpEvent)
          (view : Datatypes.option QAbstractItemView),
      isEmpty text = true \/ event = None \/ view = None ->
      helpEvent tk hd cls this event view option index screen =
        (false, screen)) /\
  (forall (event : Datatypes.option QHelpEvent)
          (view : Datatypes.option QAbstractItemView)
          (raw : QVariant),
      helpEvent tk hd cls this event view option
        (with_data index ToolTipRole raw) screen =
      helpEvent tk hd cls this event view option index screen).
Proof.
  cbn zeta. unfold helpEvent. refine (conj _ (conj _ _)).
  - intros he view Hty Hne. rewrite Hne, Hty. reflexivity.
  - intros [he|] [view|] [H | [H | H]];
      try discriminate; try reflexivity.
    rewrite H. reflexivity.
  - intros [he|] [view|] raw; reflexivity.
Qed.

Lemma wrap_sub_l (a b : Z) : wrap (wrap a - b) = wrap (a - b).
Proof.
  replace (wrap a - b) with (wrap a + - b) by lia.
  rewrite wrap_add_l. f_equal; lia.
Qed.

(** The horizontal extent of the box [DrawBox] fills: it ends two pixels
    before the right edge of the line and is [w] pixels wide. *)
Lemma box_rect_edges (r : QRect) (w : Z) :
  left (box_rect r w) = wrap (right r - w - 1) /\
  right (box_rect r w) = wrap (right r - 2).
Proof.
  unfold box_rect, left, right, setLeft, setWidth, setTop, setBottom,
    int_sub, int_add, kQueueBoxBorder. simpl. split.
  - rewrite wrap_sub_l. reflexivity.
  - rewrite wrap_sub_l.
    replace (wrap (wrap (x2 r - w) - 1) + w - 1)
      with (wrap (wrap (x2 r - w) - 1) + (w - 1)) by lia.
    rewrite wrap_add_l.
    replace (wrap (x2 r - w) - 1 + (w - 1))
      with (wrap (x2 r - w) + (w - 2)) by lia.
    rewrite wrap_add_l. f_equal; lia.
Qed.

Lemma Adjusted_right (this : PlaylistDelegateBase)
    (option : QStyleOptionViewItem) (index : QModelIndex) :
  right (rect (Adjusted tk this option index)) = right (rect option).
Proof.
  unfold Adjusted.
  destruct (negb _); [reflexivity|].
  destruct (toBool _); reflexivity.
Qed.

(** C8.  [PlaylistDelegateBase::paint] draws the "stop" badge, after what
    [QueuedItemDelegate::paint] draws, exactly when the column of the index
    is the title column and the row has the stop-after role; the badge is
    drawn at the end of the rectangle of the option with its right edge
    moved left by [queue_indicator_size(index)].  When the queue badge is
    drawn in the same cell, that size is 32 and the stop badge ends three
    pixels before the queue badge starts (for a right edge at least 34
    above the least [int], where the subtractions do not overflow). *)
Theorem stop_badge_drawn (this : PlaylistDelegateBase) (painter : QPainter)
    (option : QStyleOptionViewItem) (index : QModelIndex) :
  let queue_pos := fst (toInt tk (data index Role_QueuePosition)) in
  let badge :=
    (column index =? indicator_column_ (queued this))
    && negb (queue_pos =? -1) in
  let stop :=
    (column index =? Column_Title hd)
    && toBool tk (data index Role_StopAfter) in
  let queue_painted :=
    QueuedItemDelegate_paint tk (queued this) painter
      (Adjusted tk this option index) index in
  let queue_box :=
    box_rect (rect (Adjusted tk this option index)) kQueueBoxLength in
  let line :=
    setRight (rect option)
      (int_sub (right (rect option))
         (queue_indicator_size tk (queued this) index)) in
  let stop_width :=
    if DrawBox_default_width hd =? -1
    then fontMetrics_width tk (font option)
           (chars (tr tk "stop") ++ "  ")%string
    else DrawBox_default_width hd in
  let stop_box := box_rect line stop_width in
  let painted := PlaylistDelegateBase_paint tk hd this painter option index in
  drawn_texts painted =
    drawn_texts queue_painted ++
    (if stop then [(stop_box, tr tk "stop")] else []) /\
  drawn_boxes painted =
    drawn_boxes painter ++ (if badge then [queue_box] else []) ++
    (if stop then [stop_box] else []) /\
  queue_indicator_size tk (queued this) index = (if badge then 32 else 0) /\
  (badge = true ->
   INT_MIN + 34 <= right (rect option) <= INT_MAX ->
   left queue_box = right (rect option) - 31 /\
   right stop_box = right (rect option) - 34 /\
   right stop_box < left queue_box).
Proof.
  cbn zeta.
  set (queue_pos := fst (toInt tk (data index Role_QueuePosition))).
  assert (Hsize :
    queue_indicator_size tk (queued this) index =
    if (column index =? indicator_column_ (queued this))
       && negb (queue_pos =? -1) then 32 else 0).
  { unfold queue_indicator_size. fold queue_pos.
    destruct (column index =? indicator_column_ (queued this));
      [destruct (queue_pos =? -1)|]; reflexivity. }
  destruct (QueuedItemDelegate_paint_drawn (queued this) painter
              (Adjusted tk this option index) index) as [_ Hqb].
  cbn zeta in Hqb. fold queue_pos in Hqb.
  refine (conj _ (conj _ (conj Hsize _))).
  - unfold PlaylistDelegateBase_paint.
    destruct (column index =? Column_Title hd);
      [destruct (toBool tk (data index Role_StopAfter))|]; cbn [andb];
      rewrite ?app_nil_r; try reflexivity.
    apply DrawBox_drawn.
  - unfold PlaylistDelegateBase_paint.
    destruct (column index =? Column_Title hd);
      [destruct (toBool tk (data index Role_StopAfter))|]; cbn [andb];
      rewrite ?app_nil_r; try exact Hqb.
    rewrite (proj2 (DrawBox_drawn _ _ _ _ _)), Hqb, <- app_assoc.
    reflexivity.
  - intros Hbadge Hrange. rewrite Hsize, Hbadge.
    destruct (box_rect_edges (rect (Adjusted tk this option index))
                kQueueBoxLength) as [Hl _].
    rewrite Adjusted_right in Hl.
    match goal with
    | |- _ /\ right (box_rect ?l ?w) = _ /\ _ =>
        destruct (box_rect_edges l w) as [_ Hr]
    end.
    change (right (setRight (rect option) (int_sub (right (rect option)) 32)))
      with (int_sub (right (rect option)) 32) in Hr.
    assert (Hr' : wrap (int_sub (right (rect option)) 32 - 2) =
                  wrap (right (rect option) - 32 - 2))
      by (unfold int_sub; apply wrap_sub_l).
    rewrite Hl, Hr, Hr'. unfold kQueueBoxLength, INT_MIN, INT_MAX in *.
    rewrite !wrap_small by (unfold in_int, INT_MIN, INT_MAX; lia).
    lia.
Qed.
End Properties.

(* ================================================================= *)
(** ** The properties at concrete inputs *)

(** An invalid variant does not convert to an integer: the three numeric
    formatters show nothing, the file type formatter shows "Unknown". *)
Lemma malformed_value_text_witness :
  snd (toInt plain_toolkit Invalid) = false /\
  LengthItemDelegate_displayText plain_toolkit song_headers Invalid = QNull /\
  SizeItemDelegate_displayText plain_toolkit song_headers Invalid = QNull /\
  DateItemDelegate_displayText plain_toolkit Invalid = QNull /\
  FileTypeItemDelegate_displayText plain_toolkit song_headers Invalid =
    tr plain_toolkit "Unknown" /\
  isEmpty (FileTypeItemDelegate_displayText plain_toolkit song_headers Invalid)
    = false.
Proof.
  split; [reflexivity|].
  apply (malformed_value_text plain_toolkit song_headers Invalid).
  reflexivity.
Defined.

(** C1 as stated fails: the invalid variant and the text "x" do not convert
    to an integer, and [FileTypeItemDelegate] shows them as "Unknown". *)
Lemma malformed_file_type_not_blank :
  snd (toInt plain_toolkit Invalid) = false /\
  FileTypeItemDelegate_displayText plain_toolkit song_headers Invalid =
    QStr "Unknown" /\
  isEmpty (FileTypeItemDelegate_displayText plain_toolkit song_headers Invalid)
    = false /\
  snd (toInt plain_toolkit (VString (QStr "x"))) = false /\
  FileTypeItemDelegate_displayText plain_toolkit song_headers
    (VString (QStr "x")) = QStr "Unknown".
Proof. repeat split. Qed.

(** A row at the fourth place of the queue, painted in the indicator
    column: one badge holding "4". *)
Lemma queue_badge_drawn_witness :
  drawn_texts
    (QueuedItemDelegate_paint plain_toolkit (mkQueuedItemDelegate 0) []
       sample_option (sample_index 0 "Song" false false 3)) =
    [(mkRect 168 1 197 15, QStr "4")] /\
  drawn_texts
    (QueuedItemDelegate_paint plain_toolkit (mkQueuedItemDelegate 0) []
       sample_option (sample_index 0 "Song" false false (-1))) = [].
Proof.
  split.
  - exact (proj1 (queue_badge_drawn plain_toolkit (mkQueuedItemDelegate 0) []
                    sample_option (sample_index 0 "Song" false false 3))).
  - apply (proj1 (proj2 (proj2
             (queue_badge_drawn plain_toolkit (mkQueuedItemDelegate 0) []
                sample_option (sample_index 0 "Song" false false (-1))))) ).
    reflexivity.
Defined.

(** C2 as stated fails: the queue position -2 is negative, and a badge
    holding "-1" is drawn in the indicator column. *)
Lemma negative_queue_position_badge :
  fst (toInt plain_toolkit
         (data (sample_index 0 "Song" false false (-2)) Role_QueuePosition))
    = -2 /\
  drawn_texts
    (QueuedItemDelegate_paint plain_toolkit (mkQueuedItemDelegate 0) []
       sample_option (sample_index 0 "Song" false false (-2))) =
    [(mkRect 168 1 197 15, QStr "-1")] /\
  drawn_boxes
    (QueuedItemDelegate_paint plain_toolkit (mkQueuedItemDelegate 0) []
       sample_option (sample_index 0 "Song" false false (-2))) =
    [mkRect 168 1 197 15].
Proof. repeat split. Qed.

(** The base formatter on numbers, with the suffix "kbps". *)
Lemma displayText_of_numbers_witness :
  PlaylistDelegateBase_displayText plain_toolkit
    (sample_delegate (QStr "kbps")) (VInt 320) = QStr "320 kbps" /\
  PlaylistDelegateBase_displayText plain_toolkit
    (sample_delegate (QStr "kbps")) (VInt 0) = QNull /\
  PlaylistDelegateBase_displayText plain_toolkit
    (sample_delegate (QStr "kbps")) (VDouble (double_of_int (-3))) = QNull.
Proof.
  pose proof (displayText_of_numbers plain_toolkit
                (sample_delegate (QStr "kbps"))) as H.
  cbn zeta in H. destruct H as (Hi & _ & _ & Hle & Hdle & _).
  split; [exact (Hi 320)|]. split.
  - apply Hle. lia.
  - apply Hdle. reflexivity.
Defined.

(** C3 as stated fails: zero and -5 are integer cell values that are not
    positive, and as [qlonglong] or [uint] variants they are shown by
    their digits, with the suffix when there is one. *)
Lemma integer_zero_displayed :
  (0 <=? 0) = true /\ (-5 <=? 0) = true /\
  PlaylistDelegateBase_displayText plain_toolkit (sample_delegate QNull)
    (VLongLong 0) = QStr "0" /\
  PlaylistDelegateBase_displayText plain_toolkit
    (sample_delegate (QStr "kbps")) (VLongLong 0) = QStr "0 kbps" /\
  PlaylistDelegateBase_displayText plain_toolkit (sample_delegate QNull)
    (VLongLong (-5)) = QStr "-5" /\
  PlaylistDelegateBase_displayText plain_toolkit (sample_delegate QNull)
    (VUInt 0) = QStr "0".
Proof. repeat split. Qed.

(** A third of the way down the ramp. *)
Lemma opacity_ramp_witness :
  0 <= 3 /\
  float_value (paint_opacity 3) = Some (13757317 # 2 ^ 24) /\
  (Qabs ((13757317 # 2 ^ 24) - (82 # 100)) <= 1 # 2 ^ 23)%Q /\
  SFleb (paint_opacity 4) (paint_opacity 3) = true /\
  SFleb kQueueOpacityLowerBound (paint_opacity 3) = true /\
  SFleb (paint_opacity 3) (float_of_int 1) = true.
Proof.
  assert (H3 : 0 <= 3) by lia.
  destruct (opacity_ramp 3 H3) as (_ & _ & Hmono & _ & _ & Hlo & Hhi).
  split; [exact H3|]. split; [reflexivity|]. split.
  - vm_compute. discriminate.
  - split; [apply Hmono; lia|]. split; assumption.
Defined.

(** C4 as stated fails: at the queue position 1 the opacity is the [float]
    15770582 / 2^24, which is below 0.4 + 0.6 * 9 / 10 = 0.94, and below
    the same expression over the exact value of
    [kQueueOpacityLowerBound]. *)
Lemma opacity_not_exact :
  float_value (paint_opacity 1) = Some (15770582 # 2 ^ 24) /\
  ((15770582 # 2 ^ 24) < (4 # 10) + (6 # 10) * inject_Z (10 - Z.min 10 1) / (10 # 1))%Q /\
  float_value kQueueOpacityLowerBound = Some (13421773 # 2 ^ 25) /\
  ((15770582 # 2 ^ 24) <
   (13421773 # 2 ^ 25) +
   (1 - (13421773 # 2 ^ 25)) * inject_Z (10 - Z.min 10 1) / (10 # 1))%Q.
Proof. repeat split. Qed.


(** A tooltip over a title shows the title; a null event shows nothing. *)
Lemma helpEvent_tooltip_witness :
  helpEvent plain_toolkit song_headers BaseClass (sample_delegate QNull)
    (Some (mkHelpEvent ToolTip (mkPoint 3 4))) (Some 7) sample_option
    (sample_index 0 "Song" false false (-1)) [] =
    (true, [QToolTip_showText (mkPoint 3 4) (QStr "Song") 7]) /\
  helpEvent plain_toolkit song_headers BaseClass (sample_delegate QNull)
    None (Some 7) sample_option
    (sample_index 0 "Song" false false (-1)) [] = (false, []).
Proof.
  destruct (helpEvent_tooltip plain_toolkit song_headers BaseClass
              (sample_delegate QNull) sample_option
              (sample_index 0 "Song" false false (-1)) [])
    as (Hshow & Hnot & _).
  split.
  - apply (Hshow (mkHelpEvent ToolTip (mkPoint 3 4)) 7); reflexivity.
  - apply Hnot. right. left. reflexivity.
Defined.

(** A queued row that stops the playback, painted in the title column:
    the queue badge, then the stop badge to its left. *)
Lemma stop_badge_drawn_witness :
  drawn_texts
    (PlaylistDelegateBase_paint plain_toolkit song_headers
       (sample_delegate QNull) [] sample_option
       (sample_index 0 "Song" false true 3)) =
    [(mkRect 168 1 197 15, QStr "4"); (mkRect 124 1 165 15, QStr "stop")] /\
  right (mkRect 124 1 165 15) < left (mkRect 168 1 197 15) /\
  drawn_texts
    (PlaylistDelegateBase_paint plain_toolkit song_headers
       (sample_delegate QNull) [] sample_option
       (sample_index 0 "Song" false false 3)) =
    [(mkRect 168 1 197 15, QStr "4")].
Proof.
  split; [|split].
  - exact (proj1 (stop_badge_drawn plain_toolkit song_headers
                    (sample_delegate QNull) [] sample_option
                    (sample_index 0 "Song" false true 3))).
  - destruct (stop_badge_drawn plain_toolkit song_headers
                (sample_delegate QNull) [] sample_option
                (sample_index 0 "Song" false true 3))
      as (_ & _ & _ & Hapart).
    refine (proj2 (proj2 (Hapart eq_refl _))).
    unfold INT_MIN, INT_MAX. simpl. lia.
  - exact (proj1 (stop_badge_drawn plain_toolkit song_headers
                    (sample_delegate QNull) [] sample_option
                    (sample_index 0 "Song" false false 3))).
Defined.

(** 12 is the value of no file type. *)
Lemma unknown_file_type_text_witness :
  toInt plain_toolkit (VInt 12) = (12, true) /\
  FileTypeItemDelegate_displayText plain_toolkit song_headers (VInt 12) =
    QStr "Unknown" /\
  FileTypeItemDelegate_displayText plain_toolkit song_headers (VInt 0) =
    QStr "Unknown".
Proof.
  assert (H12 : forall c, In c recognised_types ->
                          12 <> FileType_value song_headers c).
  { intros c Hin. simpl in Hin.
    repeat (destruct Hin as [<- | Hin]; [discriminate|]). contradiction. }
  assert (H0 : forall c, In c recognised_types ->
                         0 <> FileType_value song_headers c).
  { intros c Hin. simpl in Hin.
    repeat (destruct Hin as [<- | Hin]; [discriminate|]). contradiction. }
  split; [reflexivity|]. split.
  - apply (proj1 (proj2 (unknown_file_type_text plain_toolkit song_headers
                           (VInt 12) 12 eq_refl H12))).
    reflexivity.
  - apply (proj1 (proj2 (unknown_file_type_text plain_toolkit song_headers
                           (VInt 0) 0 eq_refl H0))).
    reflexivity.
Defined.

(** One day after the epoch, and the timestamp -1. *)
Lemma date_text_witness :
  toInt plain_toolkit (VInt 86400) = (86400, true) /\
  DateItemDelegate_displayText plain_toolkit (VInt 86400) = QStr "@86400" /\
  DateItemDelegate_displayText plain_toolkit (VInt (-1)) = QNull.
Proof.
  split; [reflexivity|]. split.
  - exact (proj1 (date_text plain_toolkit (VInt 86400) 86400 eq_refl)).
  - exact (proj1 (date_text plain_toolkit (VInt (-1)) (-1) eq_refl)).
Defined.

(** Further evaluations. *)

Example sizeHint_raised :
  PlaylistDelegateBase_sizeHint plain_toolkit (sample_delegate QNull)
    sample_option (sample_index 0 "Song" false false (-1)) = mkSize 100 19.
Proof. reflexivity. Qed.

Example sizeHint_kept :
  PlaylistDelegateBase_sizeHint tall_toolkit (sample_delegate QNull)
    sample_option (sample_index 0 "Song" false false (-1)) = mkSize 100 24.
Proof. reflexivity. Qed.

Example file_type_labels :
  map (FileTypeItemDelegate_displayText plain_toolkit song_headers)
    [VInt 5; VInt 99; VString (QStr "2"); VInt 0; VInt (-7)] =
  [QStr "MP3"; QStr "Stream"; QStr "FLAC"; QStr "Unknown"; QStr "Unknown"].
Proof. reflexivity. Qed.

Example first_visible_column_of_sample_view :
  logicalIndexAt (header sample_view) (mkPoint (int_neg 0) (int_neg 0)) = 0.
Proof. reflexivity. Qed.

Example opacity_ends :
  paint_opacity 0 = float_of_int 1 /\
  paint_opacity 10 = kQueueOpacityLowerBound /\
  paint_opacity 2147483647 = kQueueOpacityLowerBound.
Proof. repeat split. Qed.

(* ================================================================= *)
(** ** Further properties of the delegates *)

Section Geometry.

Context (tk : Toolkit).

(** X1.  The box [DrawBox] fills is [w] pixels wide and ends two pixels
    before the right edge of the line; it starts one pixel below the top
    of the line and ends two pixels above its bottom; and it does not
    depend on the left edge of the line.  (For coordinates where the
    [int] arithmetic does not overflow.) *)
Theorem box_rect_geometry (r : QRect) (w : Z) :
  in_int (right r - w - 1) -> in_int (right r - 2) ->
  in_int (top r + 1) -> in_int (bottom r - 2) ->
  left (box_rect r w) = right r - w - 1 /\
  right (box_rect r w) = right r - 2 /\
  top (box_rect r w) = top r + 1 /\
  bottom (box_rect r w) = bottom r - 2 /\
  rect_width (box_rect r w) = w /\
  rect_height (box_rect r w) = rect_height r - 3 /\
  (forall x, box_rect (setLeft r x) w = box_rect r w).
Proof.
  intros Hl Hr Ht Hb.
  destruct (box_rect_edges r w) as [El Er].
  assert (Et : top (box_rect r w) = wrap (top r + 1)) by reflexivity.
  assert (Eb : bottom (box_rect r w) = wrap (bottom r - 2)).
  { unfold box_rect, bottom, setBottom, setTop, setWidth, setLeft,
      int_sub, kQueueBoxBorder. simpl.
    rewrite wrap_sub_l. f_equal; lia. }
  rewrite (wrap_small _ Hl) in El. rewrite (wrap_small _ Hr) in Er.
  rewrite (wrap_small _ Ht) in Et. rewrite (wrap_small _ Hb) in Eb.
  refine (conj El (conj Er (conj Et (conj Eb (conj _ (conj _ _)))))).
  - unfold rect_width. unfold left, right in El, Er. rewrite El, Er.
    unfold right. lia.
  - unfold rect_height. unfold top, bottom in Et, Eb. rewrite Et, Eb.
    unfold top, bottom. lia.
  - intros x. reflexivity.
Qed.

(** The shift of [Adjusted] does not reach the box of a badge. *)
Lemma box_rect_Adjusted (this : PlaylistDelegateBase)
    (option : QStyleOptionViewItem) (index : QModelIndex) (w : Z) :
  box_rect (rect (Adjusted tk this option index)) w = box_rect (rect option) w.
Proof.
  unfold Adjusted.
  destruct (negb _); [reflexivity|].
  destruct (toBool _); reflexivity.
Qed.

(** X2.  The queue badge of the current song is where the badge of any
    other row is: painting with the option [Adjusted] returns draws the
    same boxes and the same texts as painting with the option itself. *)
Theorem queue_badge_ignores_shift (this : PlaylistDelegateBase)
    (painter : QPainter) (option : QStyleOptionViewItem)
    (index : QModelIndex) :
  drawn_boxes
    (QueuedItemDelegate_paint tk (queued this) painter
       (Adjusted tk this option index) index) =
  drawn_boxes
    (QueuedItemDelegate_paint tk (queued this) painter option index) /\
  drawn_texts
    (QueuedItemDelegate_paint tk (queued this) painter
       (Adjusted tk this option index) index) =
  drawn_texts
    (QueuedItemDelegate_paint tk (queued this) painter option index).
Proof.
  destruct (QueuedItemDelegate_paint_drawn tk (queued this) painter
              (Adjusted tk this option index) index) as [Ht Hb].
  destruct (QueuedItemDelegate_paint_drawn tk (queued this) painter
              option index) as [Ht' Hb'].
  cbn zeta in *. rewrite Ht, Hb, Ht', Hb', box_rect_Adjusted.
  split; reflexivity.
Qed.

(** X3.  [queue_indicator_size] is the room the badge takes at the right
    end of the cell: 0 when [paint] draws no badge there, and otherwise
    the number of pixel columns from the left edge of the badge to the
    right edge of the cell. *)
Theorem queue_indicator_size_spans_badge (this : QueuedItemDelegate)
    (option : QStyleOptionViewItem) (index : QModelIndex) :
  INT_MIN + 31 <= right (rect option) <= INT_MAX ->
  match drawn_boxes (QueuedItemDelegate_paint tk this [] option index) with
  | [] => queue_indicator_size tk this index = 0
  | box :: _ =>
      queue_indicator_size tk this index =
        right (rect option) - left box + 1
  end.
Proof.
  intros Hrange.
  destruct (QueuedItemDelegate_paint_drawn tk this [] option index)
    as [_ Hb]. cbn zeta in Hb. rewrite Hb. simpl app.
  unfold queue_indicator_size.
  destruct (column index =? indicator_column_ this); [|reflexivity].
  destruct (fst (toInt tk (data index Role_QueuePosition)) =? -1);
    [reflexivity|].
  cbn [andb negb].
  rewrite (proj1 (box_rect_edges (rect option) kQueueBoxLength)).
  unfold kQueueBoxLength, kQueueBoxBorder.
  change (int_add 30 (int_mul 1 2)) with 32.
  rewrite wrap_small; unfold in_int, INT_MIN, INT_MAX in *; lia.
Qed.





End Geometry.

Section MoreProperties.

Context (tk : Toolkit) (hd : Headers).


(** X5.  [PlaylistDelegateBase::paint] only adds calls to the painter, and
    the first call it adds is the painting of the base class, with the
    adjusted option: the badges are drawn over the cell, never under
    it. *)
Theorem paint_appends (this : PlaylistDelegateBase) (painter : QPainter)
    (option : QStyleOptionViewItem) (index : QModelIndex) :
  exists added,
    PlaylistDelegateBase_paint tk hd this painter option index =
      painter ++
      StyledItemPaint (Adjusted tk this option index) index :: added /\
    Forall (fun c => match c with
                     | StyledItemPaint _ _ => False
                     | _ => True
                     end) added.
Proof.
  unfold PlaylistDelegateBase_paint, QueuedItemDelegate_paint, DrawBox.
  destruct (column index =? Column_Title hd);
    [destruct (toBool tk (data index Role_StopAfter))|];
    (destruct (column index =? indicator_column_ (queued this));
     [destruct (fst (toInt tk (data index Role_QueuePosition)) =? -1)|]);
    cbn [negb]; rewrite <- ?app_assoc; cbn [app];
    eexists; (split; [reflexivity|]); repeat constructor.
Qed.


(** X7.  [helpEvent] returns true exactly for a tooltip, what's-this or
    query-what's-this event with an event, a view and a text that is not
    empty; it keeps what the screen shows and adds one text at most, none
    when it returns false and none for a query. *)
Theorem helpEvent_result (cls : DelegateClass) (this : PlaylistDelegateBase)
    (event : Datatypes.option QHelpEvent)
    (view : Datatypes.option QAbstractItemView)
    (opt : QStyleOptionViewItem) (index : QModelIndex) (screen : Screen) :
  let text := displayText tk hd cls this (data index DisplayRole) in
  let result := helpEvent tk hd cls this event view opt index screen in
  (fst result = true <->
   exists he v, event = Some he /\ view = Some v /\ isEmpty text = false /\
                forall n, type he <> OtherEvent n) /\
  (exists shown,
      snd result = screen ++ shown /\
      (List.length shown <= 1)%nat /\
      (fst result = false -> shown = []) /\
      (forall he, event = Some he -> type he = QueryWhatsThis ->
                  shown = [])).
Proof.
  cbn zeta. unfold helpEvent.
  destruct event as [he|]; [destruct view as [v|]|].
  - destruct (isEmpty (displayText tk hd cls this (data index DisplayRole)))
      eqn:Etext.
    + split.
      * split; [discriminate|].
        intros (he' & v' & _ & _ & H & _). discriminate H.
      * exists []. rewrite app_nil_r. repeat split; auto.
    + destruct (type he) eqn:Ety; cbn [fst snd]; split.
      * split; [|reflexivity]. intros _. exists he, v.
        repeat split. intros n. rewrite Ety. discriminate.
      * eexists. split; [reflexivity|]. simpl.
        repeat split; try discriminate; auto.
        intros he' Hhe Hq. injection Hhe as <-. congruence.
      * split; [|reflexivity]. intros _. exists he, v.
        repeat split. intros n. rewrite Ety. discriminate.
      * exists []. rewrite app_nil_r. repeat split; auto.
      * split; [|reflexivity]. intros _. exists he, v.
        repeat split. intros n'. rewrite Ety. discriminate.
      * eexists. split; [reflexivity|]. simpl.
        repeat split; try discriminate; auto.
        intros he' Hhe Hq. injection Hhe as <-. congruence.
      * split; [discriminate|].
        intros (he' & v' & Hhe & _ & _ & Hty). injection Hhe as <-.
        exfalso. apply (Hty n). exact Ety.
      * exists []. rewrite app_nil_r. repeat split; auto.
  - split.
    + split; [discriminate|]. intros (he' & v' & _ & H & _). discriminate H.
    + exists []. rewrite app_nil_r. repeat split; auto.
  - split.
    + split; [discriminate|]. intros (he' & v' & H & _). discriminate H.
    + exists []. rewrite app_nil_r. repeat split; auto.
Qed.

End MoreProperties.

Section Formatters.

Context (tk : Toolkit) (hd : Headers).

(** X8.  A text value is shown followed by a space and the suffix; a null
    text and an invalid value stay null whatever the suffix is, while an
    empty text that is not null does get the suffix.  For every value the
    result is null exactly when it is null without a suffix. *)
Theorem displayText_of_text (this : PlaylistDelegateBase) :
  let plain :=
    PlaylistDelegateBase_displayText tk
      (mkPlaylistDelegateBase (queued this) (view_ this) QNull) in
  (forall s u, suffix_ this = QStr u ->
     PlaylistDelegateBase_displayText tk this (VString (QStr s)) =
       QStr (s ++ " " ++ u)%string) /\
  (forall u, suffix_ this = QStr u ->
     PlaylistDelegateBase_displayText tk this (VString (QStr "")) =
       QStr (" " ++ u)%string) /\
  (forall t, suffix_ this = QNull ->
     PlaylistDelegateBase_displayText tk this (VString t) = t) /\
  PlaylistDelegateBase_displayText tk this (VString QNull) = QNull /\
  PlaylistDelegateBase_displayText tk this Invalid = QNull /\
  (forall value,
     isNull (PlaylistDelegateBase_displayText tk this value) =
     isNull (plain value)).
Proof.
  cbn zeta. unfold PlaylistDelegateBase_displayText, qappend.
  refine (conj _ (conj _ (conj _ (conj _ (conj _ _))))).
  - intros s u ->. reflexivity.
  - intros u ->. reflexivity.
  - intros t ->. destruct t; reflexivity.
  - reflexivity.
  - reflexivity.
  - intros value. cbn [suffix_].
    replace (negb (isNull QNull)) with false by reflexivity.
    rewrite Bool.andb_false_r.
    match goal with
    | |- isNull (if negb (isNull ?t) && _ then _ else _) = _ =>
        destruct (isNull t) eqn:E; destruct (isNull (suffix_ this));
        cbn [negb andb]; rewrite ?E; reflexivity
    end.
Qed.

(** The [case] whose value is [FileType_value c], when the values of the
    cases are distinct. *)
Lemma switch_type_hit (cases : list (FileType * string)) (c : FileType)
    (label : string) :
  NoDup (map (fun cl => FileType_value hd (fst cl)) cases) ->
  In (c, label) cases ->
  switch_type tk hd cases (FileType_value hd c) = tr tk label.
Proof.
  induction cases as [|[c' l'] rest IH]; simpl; intros Hnd Hin;
    [contradiction|].
  inversion Hnd as [|v vs Hnotin Hnd']; subst.
  destruct Hin as [Heq | Hin].
  - injection Heq as -> ->. rewrite Z.eqb_refl. reflexivity.
  - destruct (FileType_value hd c =? FileType_value hd c') eqn:E.
    + exfalso. apply Hnotin. apply Z.eqb_eq in E. rewrite <- E.
      apply (in_map (fun cl => FileType_value hd (fst cl)) rest (c, label)).
      exact Hin.
    + apply IH; assumption.
Qed.

(** X9.  When the twelve file types with a label have distinct values, as
    the [case] labels of a [switch] must, a value that converts to the
    value of one of them is shown as the translation of the label of that
    type. *)
Theorem file_type_label_of_code (value : QVariant) (c : FileType)
    (label : string) :
  NoDup (map (FileType_value hd) recognised_types) ->
  In (c, label) type_labels ->
  toInt tk value = (FileType_value hd c, true) ->
  FileTypeItemDelegate_displayText tk hd value = tr tk label.
Proof.
  intros Hnd Hin Hconv.
  unfold FileTypeItemDelegate_displayText. rewrite Hconv. cbn [negb].
  apply switch_type_hit; [|exact Hin].
  exact Hnd.
Qed.

(** X10.  [DateItemDelegate] passes the timestamp on as an unsigned
    number: a timestamp that is not negative is printed as it is, and a
    negative one other than -1 is printed as the time 2^32 seconds
    later. *)
Theorem date_text_range (value : QVariant) (time : Z) :
  toInt tk value = (time, true) ->
  in_int time ->
  (0 <= time ->
   DateItemDelegate_displayText tk value = dateTime_toString tk time) /\
  (time < -1 ->
   DateItemDelegate_displayText tk value =
     dateTime_toString tk (time + 2 ^ 32)).
Proof.
  intros Hconv Hint. unfold DateItemDelegate_displayText. rewrite Hconv.
  unfold in_int, INT_MIN, INT_MAX in Hint. cbn [negb orb].
  split; intros Ht.
  - destruct (time =? -1) eqn:E; [apply Z.eqb_eq in E; lia|].
    unfold to_uint. rewrite Z.mod_small by lia. reflexivity.
  - destruct (time =? -1) eqn:E; [apply Z.eqb_eq in E; lia|].
    unfold to_uint. f_equal.
    rewrite <- (Z.mod_add time 1 (2 ^ 32)) by lia.
    rewrite Z.mod_small by lia. lia.
Qed.

(** A length that is zero or negative is shown as a blank text, as
    a value that is no number is; a size is shown whatever its sign. *)
Lemma length_and_size_text (value : QVariant) (n : Z) :
  toInt tk value = (n, true) ->
  (n <= 0 -> LengthItemDelegate_displayText tk hd value = QNull) /\
  (0 < n -> LengthItemDelegate_displayText tk hd value = PrettyTime hd n) /\
  SizeItemDelegate_displayText tk hd value = PrettySize hd n.
Proof.
  intros Hconv.
  unfold LengthItemDelegate_displayText, SizeItemDelegate_displayText.
  rewrite Hconv. cbn [andb]. refine (conj _ (conj _ eq_refl)).
  - intros Hn. destruct (n >? 0) eqn:E; [apply Z.gtb_lt in E; lia|].
    reflexivity.
  - intros Hn. destruct (n >? 0) eqn:E; [reflexivity|].
    rewrite Z.gtb_ltb in E. apply Z.ltb_ge in E. lia.
Qed.

End Formatters.

Section Completion.

Context (cols : Columns).

Lemma album_names_loop (albums : list Album) (names : list QString) :
  fold_left (fun names album => names ++ [album_name album]) albums names =
  names ++ map album_name albums.
Proof.
  revert names. induction albums as [|a rest IH]; intros names; simpl.
  - rewrite app_nil_r. reflexivity.
  - rewrite IH, <- app_assoc. reflexivity.
Qed.

(** The three ways through the [switch] of the constructor. *)
Lemma TagCompletionModel_new_cases (backend : LibraryBackend) (column : Z) :
  Column_Album cols <> Column_Artist cols ->
  (column = Column_Artist cols ->
   TagCompletionModel_new cols backend column = GetAllArtists backend) /\
  (column = Column_Album cols ->
   TagCompletionModel_new cols backend column =
     map album_name (GetAllAlbums backend)) /\
  (column <> Column_Artist cols -> column <> Column_Album cols ->
   TagCompletionModel_new cols backend column = []).
Proof.
  intros Hdiff. unfold TagCompletionModel_new, setStringList.
  refine (conj _ (conj _ _)).
  - intros ->. rewrite Z.eqb_refl. reflexivity.
  - intros ->. rewrite (proj2 (Z.eqb_neq _ _) Hdiff), Z.eqb_refl.
    rewrite album_names_loop. reflexivity.
  - intros H1 H2.
    rewrite (proj2 (Z.eqb_neq _ _) H1), (proj2 (Z.eqb_neq _ _) H2).
    destruct (column =? Column_AlbumArtist cols); reflexivity.
Qed.

(** X11.  The completion list of the artist column is the list of the
    artists of the library; that of the album column is the names of its
    albums, one for each album and in the order of the library; every
    other column, the album-artist column too, has an empty list. *)
Theorem TagCompletionModel_strings (backend : LibraryBackend) (column : Z) :
  Column_Album cols <> Column_Artist cols ->
  (column = Column_Artist cols ->
   TagCompletionModel_new cols backend column = GetAllArtists backend) /\
  (column = Column_Album cols ->
   TagCompletionModel_new cols backend column =
     map album_name (GetAllAlbums backend) /\
   List.length (TagCompletionModel_new cols backend column) =
     List.length (GetAllAlbums backend)) /\
  (column <> Column_Artist cols -> column <> Column_Album cols ->
   TagCompletionModel_new cols backend column = []).
Proof.
  intros Hdiff.
  destruct (TagCompletionModel_new_cases backend column Hdiff)
    as (Hartist & Halbum & Hother).
  refine (conj Hartist (conj _ Hother)).
  intros Hc. rewrite (Halbum Hc). split; [reflexivity|]. apply length_map.
Qed.

(** X12.  The editor [TagCompletionItemDelegate] creates always has a
    completer, and the completer ignores case: over the album names of the
    library for the album column, over its artists for the artist column,
    and over nothing for any other column, so that the editor of the
    album-artist column completes nothing.  Dropping the completer gives
    the editor [TextItemDelegate] creates. *)
Theorem createEditor_completer (this : TagCompletionItemDelegate)
    (parent : Datatypes.option Z) (option : QStyleOptionViewItem)
    (index : QModelIndex) :
  Column_Album cols <> Column_Artist cols ->
  let editor :=
    TagCompletionItemDelegate_createEditor cols this parent option index in
  let completes (l : list QString) :=
    completer editor =
      Some {| completer_model := Some l;
              caseSensitivity := CaseInsensitive |} in
  (column_ this = Column_Album cols ->
   completes (map album_name (GetAllAlbums (backend_ this)))) /\
  (column_ this = Column_Artist cols ->
   completes (GetAllArtists (backend_ this))) /\
  (column_ this <> Column_Artist cols ->
   column_ this <> Column_Album cols -> completes []) /\
  {| lineEdit_parent := lineEdit_parent editor;
     lineEdit_text := lineEdit_text editor;
     completer := None |} =
    TextItemDelegate_createEditor parent option index.
Proof.
  intros Hdiff. cbn zeta.
  destruct (TagCompletionModel_new_cases (backend_ this) (column_ this)
              Hdiff) as (Hartist & Halbum & Hother).
  unfold TagCompletionItemDelegate_createEditor, TagCompleter_new,
    setCompleter, setCaseSensitivity, setModel, QCompleter_new.
  cbn [completer completer_model caseSensitivity].
  refine (conj _ (conj _ (conj _ eq_refl))).
  - intros Hc. rewrite (Halbum Hc). reflexivity.
  - intros Hc. rewrite (Hartist Hc). reflexivity.
  - intros H1 H2. rewrite (Hother H1 H2). reflexivity.
Qed.

End Completion.

(* ================================================================= *)
(** ** The further properties at concrete inputs *)

Lemma box_rect_geometry_witness :
  in_int (right sample_rect - 30 - 1) /\
  box_rect sample_rect 30 = mkRect 168 1 197 15 /\
  rect_width (box_rect sample_rect 30) = 30.
Proof.
  assert (H1 : in_int (right sample_rect - 30 - 1))
    by (unfold in_int, INT_MIN, INT_MAX; simpl; lia).
  assert (H2 : in_int (right sample_rect - 2))
    by (unfold in_int, INT_MIN, INT_MAX; simpl; lia).
  assert (H3 : in_int (top sample_rect + 1))
    by (unfold in_int, INT_MIN, INT_MAX; simpl; lia).
  assert (H4 : in_int (bottom sample_rect - 2))
    by (unfold in_int, INT_MIN, INT_MAX; simpl; lia).
  split; [exact H1|]. split; [reflexivity|].
  exact (proj1 (proj2 (proj2 (proj2 (proj2
           (box_rect_geometry sample_rect 30 H1 H2 H3 H4)))))).
Defined.

Lemma queue_indicator_size_spans_badge_witness :
  INT_MIN + 31 <= right (rect sample_option) <= INT_MAX /\
  queue_indicator_size plain_toolkit (mkQueuedItemDelegate 0)
    (sample_index 0 "Song" false false 3) = 199 - 168 + 1 /\
  queue_indicator_size plain_toolkit (mkQueuedItemDelegate 0)
    (sample_index 1 "Song" false false 3) = 0.
Proof.
  assert (H : INT_MIN + 31 <= right (rect sample_option) <= INT_MAX)
    by (unfold INT_MIN, INT_MAX; simpl; lia).
  split; [exact H|]. split.
  - exact (queue_indicator_size_spans_badge plain_toolkit
             (mkQueuedItemDelegate 0) sample_option
             (sample_index 0 "Song" false false 3) H).
  - exact (queue_indicator_size_spans_badge plain_toolkit
             (mkQueuedItemDelegate 0) sample_option
             (sample_index 1 "Song" false false 3) H).
Defined.


Lemma helpEvent_result_witness :
  fst (helpEvent plain_toolkit song_headers BaseClass (sample_delegate QNull)
         (Some (mkHelpEvent QueryWhatsThis (mkPoint 3 4))) (Some 7)
         sample_option (sample_index 0 "Song" false false (-1)) []) = true.
Proof.
  apply (proj1 (helpEvent_result plain_toolkit song_headers BaseClass
                  (sample_delegate QNull)
                  (Some (mkHelpEvent QueryWhatsThis (mkPoint 3 4))) (Some 7)
                  sample_option (sample_index 0 "Song" false false (-1)) [])).
  exists (mkHelpEvent QueryWhatsThis (mkPoint 3 4)), 7.
  repeat split. intros n. discriminate.
Defined.

Lemma displayText_of_text_witness :
  PlaylistDelegateBase_displayText plain_toolkit
    (sample_delegate (QStr "kbps")) (VString (QStr "320")) =
    QStr "320 kbps" /\
  PlaylistDelegateBase_displayText plain_toolkit
    (sample_delegate (QStr "kbps")) (VString (QStr "")) = QStr " kbps".
Proof.
  pose proof (displayText_of_text plain_toolkit
                (sample_delegate (QStr "kbps"))) as H.
  cbn zeta in H. destruct H as (Htext & Hempty & _).
  split.
  - exact (Htext "320" "kbps" eq_refl).
  - exact (Hempty "kbps" eq_refl).
Defined.

Lemma file_type_label_of_code_witness :
  NoDup (map (FileType_value song_headers) recognised_types) /\
  FileTypeItemDelegate_displayText plain_toolkit song_headers (VInt 5) =
    QStr "MP3".
Proof.
  assert (Hnd : NoDup (map (FileType_value song_headers) recognised_types)).
  { simpl. repeat (constructor; [simpl; intuition discriminate|]).
    constructor. }
  split; [exact Hnd|].
  apply (file_type_label_of_code plain_toolkit song_headers (VInt 5)
           Type_Mpeg "MP3" Hnd).
  - simpl. tauto.
  - reflexivity.
Defined.

Lemma date_text_range_witness :
  toInt plain_toolkit (VInt (-2)) = (-2, true) /\ in_int (-2) /\
  DateItemDelegate_displayText plain_toolkit (VInt (-2)) =
    QStr "@4294967294".
Proof.
  assert (H : in_int (-2)) by (unfold in_int, INT_MIN, INT_MAX; lia).
  split; [reflexivity|]. split; [exact H|].
  apply (proj2 (date_text_range plain_toolkit (VInt (-2)) (-2) eq_refl H)).
  lia.
Defined.

Lemma length_and_size_text_witness :
  toInt plain_toolkit (VInt 0) = (0, true) /\
  LengthItemDelegate_displayText plain_toolkit song_headers (VInt 0) = QNull /\
  SizeItemDelegate_displayText plain_toolkit song_headers (VInt 0) =
    QStr "0 bytes".
Proof.
  destruct (length_and_size_text plain_toolkit song_headers (VInt 0) 0
              eq_refl) as (Hzero & _ & Hsize).
  split; [reflexivity|]. split; [apply Hzero; lia | exact Hsize].
Defined.

Lemma TagCompletionModel_strings_witness :
  Column_Album sample_columns <> Column_Artist sample_columns /\
  TagCompletionModel_new sample_columns sample_backend 2 =
    [QStr "Moon Safari"; QStr "Tago Mago"; QStr "Future Days"] /\
  TagCompletionModel_new sample_columns sample_backend 3 = [].
Proof.
  assert (H : Column_Album sample_columns <> Column_Artist sample_columns)
    by discriminate.
  split; [exact H|]. split.
  - apply (proj1 (proj2 (TagCompletionModel_strings sample_columns
                           sample_backend 2 H))).
    reflexivity.
  - apply (proj2 (proj2 (TagCompletionModel_strings sample_columns
                           sample_backend 3 H))); discriminate.
Defined.

Lemma createEditor_completer_witness :
  Column_Album sample_columns <> Column_Artist sample_columns /\
  completer
    (TagCompletionItemDelegate_createEditor sample_columns
       (mkTagCompletionItemDelegate sample_backend 1) (Some 7)
       sample_option (sample_index 1 "Air" false false (-1))) =
    Some {| completer_model := Some [QStr "Air"; QStr "Can"];
            caseSensitivity := CaseInsensitive |}.
Proof.
  assert (H : Column_Album sample_columns <> Column_Artist sample_columns)
    by discriminate.
  split; [exact H|].
  pose proof (createEditor_completer sample_columns
                (mkTagCompletionItemDelegate sample_backend 1) (Some 7)
                sample_option (sample_index 1 "Air" false false (-1)) H)
    as Hc.
  cbn zeta in Hc. destruct Hc as (_ & Hartist & _).
  apply Hartist. reflexivity.
Defined.
